(** * Motorcycle CRUD service: the validation-and-persistence pipeline of [app.py]

    The development embeds the four layers of [src/app.py]:
    the pydantic schemas and the mapped table ([MotorcycleModel]),
    [MotorcycleRepository], [MotorcycleService] and [MotorcycleController].

    The layers below the repository (advanced_alchemy's
    [SQLAlchemySyncRepository], the SQLAlchemy session and the relational
    engine) are libraries the program calls.  They are represented by an
    executable model of one table, module [Engine], written from the calls the
    source makes and the schema it declares: an integer primary key drawn from
    a sequence, a UNIQUE and NOT NULL [vin], NOT NULL columns, and the five
    repository methods [list], [get_one], [add], [update] and [delete].
    Value-domain failures of the engine (integer width, text encoding) and
    connection failures are outside the model. *)

From Stdlib Require Import ZArith List String Bool Lia Floats.
From Stdlib Require Import Sorting.Sorted Sorting.Permutation.
From Stdlib Require Import Structures.OrderedTypeEx.
Import ListNotations.

Local Open Scope string_scope.
Local Open Scope Z_scope.
Local Open Scope list_scope.

(* ================================================================= *)
(** ** Python values *)

(** An attribute of a pydantic model or of a freshly constructed mapped
    instance is in one of three states: never assigned ([Unset]), assigned
    [None], or assigned a value.  pydantic keeps the distinction in
    [model_fields_set]; SQLAlchemy keeps it in the instance [__dict__]. *)
Inductive attr (A : Type) : Type :=
| Unset : attr A
| SetTo : option A -> attr A.

Arguments Unset {A}.
Arguments SetTo {A} _.

(** Reading an attribute: an unset one reads as its default, [None]. *)
Definition read {A : Type} (a : attr A) : option A :=
  match a with
  | Unset => None
  | SetTo v => v
  end.

Definition Val {A : Type} (a : A) : attr A := SetTo (Some a).

(** Python's [x != y] between a [str] and a [str | None]. *)
Definition str_ne (x : string) (y : option string) : bool :=
  match y with
  | None => true
  | Some s => negb (String.eqb x s)
  end.

(* ================================================================= *)
(** ** Schemas (lines 24-73 of app.py) *)

(** The constructor of [MotorcycleModel], called with keyword arguments: a
    transient mapped instance.  Only the arguments given are assigned; [id]
    is a column of the base class [BigIntBase]. *)
Module MotorcycleModel.
Record t : Type := mk {
  id : attr Z;
  vin : attr string;
  motorcycle_type : attr string;
  odometer_value : attr float;
  odometer_unit : attr string;
  is_electric : attr bool;
  number_of_seats : attr Z
}.
End MotorcycleModel.

(** A stored row of table [vehicle.motorcycle], which is also what a
    persistent, refreshed [MotorcycleModel] instance holds.  Every column is
    NOT NULL: five by [nullable=False], [id] as primary key, and
    [motorcycle_type] through its non-optional [Mapped[str]] annotation. *)
Module Row.
Record t : Type := mk {
  id : Z;
  vin : string;
  motorcycle_type : string;
  odometer_value : float;
  odometer_unit : string;
  is_electric : bool;
  number_of_seats : Z
}.
End Row.

Module MotorcycleResponse.
Record t : Type := mk {
  id : Z;
  vin : string;
  motorcycle_type : string;
  odometer_value : float;
  odometer_unit : string;
  is_electric : bool;
  number_of_seats : Z
}.

(** [MotorcycleResponse.model_validate(obj)] with [from_attributes=True]
    on a persistent instance: every attribute is read and copied. *)
Definition model_validate (obj : Row.t) : t :=
  {| id := Row.id obj;
     vin := Row.vin obj;
     motorcycle_type := Row.motorcycle_type obj;
     odometer_value := Row.odometer_value obj;
     odometer_unit := Row.odometer_unit obj;
     is_electric := Row.is_electric obj;
     number_of_seats := Row.number_of_seats obj |}.
End MotorcycleResponse.

(** A keyword dictionary over the six payload fields, as produced by
    [model_dump]: [Unset] is an absent key. *)
Module Kwargs.
Record t : Type := mk {
  vin : attr string;
  motorcycle_type : attr string;
  odometer_value : attr float;
  odometer_unit : attr string;
  is_electric : attr bool;
  number_of_seats : attr Z
}.
End Kwargs.

Module MotorcycleCreate.
Record t : Type := mk {
  vin : string;
  motorcycle_type : string;
  odometer_value : float;
  odometer_unit : string;
  is_electric : bool;
  number_of_seats : Z
}.

(** [data.model_dump()]: every field is present. *)
Definition model_dump (data : t) : Kwargs.t :=
  {| Kwargs.vin := Val (vin data);
     Kwargs.motorcycle_type := Val (motorcycle_type data);
     Kwargs.odometer_value := Val (odometer_value data);
     Kwargs.odometer_unit := Val (odometer_unit data);
     Kwargs.is_electric := Val (is_electric data);
     Kwargs.number_of_seats := Val (number_of_seats data) |}.
End MotorcycleCreate.

(** Every field of [MotorcycleUpdate] is [T | None = None]: a body may omit
    it ([Unset]), send [null] ([SetTo None]) or send a value. *)
Module MotorcycleUpdate.
Record t : Type := mk {
  vin : attr string;
  motorcycle_type : attr string;
  odometer_value : attr float;
  odometer_unit : attr string;
  is_electric : attr bool;
  number_of_seats : attr Z
}.

(** [data.model_dump(exclude_unset=True)]: the fields that were set, with
    the value they were set to. *)
Definition model_dump_exclude_unset (data : t) : Kwargs.t :=
  {| Kwargs.vin := vin data;
     Kwargs.motorcycle_type := motorcycle_type data;
     Kwargs.odometer_value := odometer_value data;
     Kwargs.odometer_unit := odometer_unit data;
     Kwargs.is_electric := is_electric data;
     Kwargs.number_of_seats := number_of_seats data |}.
End MotorcycleUpdate.

(** [MotorcycleModel] constructed from the unpacked [data_dict]. *)
Definition MotorcycleModel_init (kw : Kwargs.t) : MotorcycleModel.t :=
  {| MotorcycleModel.id := Unset;
     MotorcycleModel.vin := Kwargs.vin kw;
     MotorcycleModel.motorcycle_type := Kwargs.motorcycle_type kw;
     MotorcycleModel.odometer_value := Kwargs.odometer_value kw;
     MotorcycleModel.odometer_unit := Kwargs.odometer_unit kw;
     MotorcycleModel.is_electric := Kwargs.is_electric kw;
     MotorcycleModel.number_of_seats := Kwargs.number_of_seats kw |}.

(** [data.id = v] on a mapped instance. *)
Definition set_id (data : MotorcycleModel.t) (v : Z) : MotorcycleModel.t :=
  {| MotorcycleModel.id := Val v;
     MotorcycleModel.vin := MotorcycleModel.vin data;
     MotorcycleModel.motorcycle_type := MotorcycleModel.motorcycle_type data;
     MotorcycleModel.odometer_value := MotorcycleModel.odometer_value data;
     MotorcycleModel.odometer_unit := MotorcycleModel.odometer_unit data;
     MotorcycleModel.is_electric := MotorcycleModel.is_electric data;
     MotorcycleModel.number_of_seats := MotorcycleModel.number_of_seats data |}.

(* ================================================================= *)
(** ** Exceptions, session state and the exception monad *)

Inductive Exception : Type :=
| ValidationException (detail : string)   (* litestar.exceptions *)
| NotFoundError                           (* no row matches *)
| MultipleResultsFoundError               (* more than one row matches *)
| IntegrityError.                         (* a constraint rejects the statement *)

(** The repository methods the program can call, for the call record. *)
Inductive Call : Type :=
| CallList
| CallGetOne (vin : option string)
| CallAdd
| CallUpdate (data : MotorcycleModel.t)
| CallDelete (item_id : Z).

Record Table : Type := mkTable {
  rows : list Row.t;      (* in insertion order *)
  next_id : Z             (* the primary-key sequence *)
}.

(** What a request runs against: the table, and a record of the repository
    methods called so far. *)
Record Session : Type := mkSession {
  table : Table;
  calls : list Call
}.

Definition M (A : Type) : Type := Session -> (Exception + A) * Session.

Definition ret {A : Type} (a : A) : M A := fun s => (inr a, s).

Definition raise {A : Type} (e : Exception) : M A := fun s => (inl e, s).

Definition bind {A B : Type} (m : M A) (k : A -> M B) : M B :=
  fun s =>
    match m s with
    | (inl e, s') => (inl e, s')
    | (inr a, s') => k a s'
    end.

Declare Scope py_scope.
Delimit Scope py_scope with py.
Notation "x <- m ;; k" := (bind m (fun x => k))
  (at level 100, m at next level, right associativity) : py_scope.
Notation "m ;;; k" := (bind m (fun _ => k))
  (at level 100, right associativity) : py_scope.
Local Open Scope py_scope.

Definition called (c : Call) : M unit :=
  fun s => (inr tt, {| table := table s; calls := calls s ++ [c] |}).

Definition get_table : M Table := fun s => (inr (table s), s).

Definition commit (t : Table) : M unit :=
  fun s => (inr tt, {| table := t; calls := calls s |}).

(* ================================================================= *)
(** ** The storage engine behind [SQLAlchemySyncRepository] *)

(** The five methods [MotorcycleRepository] inherits and calls, over the one
    table.  Each is given the arguments the source passes it:
    - [list(order_by=(column, flag))] orders by the column, descending
      exactly when the flag is true;
    - [get_one(vin=v)] returns the single matching row, and raises
      NotFoundError for none and MultipleResultsFoundError for several;
    - [add] inserts under the next key of the sequence and raises
      IntegrityError when the vin is already stored;
    - [update] loads the row whose key is the instance's [id], merges the
      attributes assigned on the instance into it and writes it back; an
      attribute never assigned on the instance is not part of the merge;
    - [delete] loads the row by key and removes it.
    A method that raises leaves the table as it found it. *)
Module Engine.

(** [ORDER BY key DESC] when [is_desc], [ORDER BY key ASC] otherwise, as an
    insertion sort on the text order of the key. *)
Definition before (is_desc : bool) (x y : string) : bool :=
  if is_desc then String.leb y x else String.leb x y.

Fixpoint insert_by (key : Row.t -> string) (is_desc : bool)
         (r : Row.t) (l : list Row.t) : list Row.t :=
  match l with
  | [] => [r]
  | x :: l' =>
      if before is_desc (key r) (key x) then r :: x :: l'
      else x :: insert_by key is_desc r l'
  end.

Fixpoint sort_by (key : Row.t -> string) (is_desc : bool)
         (l : list Row.t) : list Row.t :=
  match l with
  | [] => []
  | x :: l' => insert_by key is_desc x (sort_by key is_desc l')
  end.

(** [scalar_one_or_none] followed by [check_not_found]. *)
Definition one (l : list Row.t) : Exception + Row.t :=
  match l with
  | [] => inl NotFoundError
  | [r] => inr r
  | _ :: _ :: _ => inl MultipleResultsFoundError
  end.

Definition where_vin (v : option string) (t : Table) : list Row.t :=
  match v with
  | None => []                          (* [vin IS NULL] on a NOT NULL column *)
  | Some s => filter (fun r => String.eqb (Row.vin r) s) (rows t)
  end.

Definition where_id (i : option Z) (t : Table) : list Row.t :=
  match i with
  | None => []
  | Some k => filter (fun r => Row.id r =? k) (rows t)
  end.

Definition lift {A : Type} (r : Exception + A) : M A :=
  fun s => (r, s).

(** [self.get_one(vin=v)]. *)
Definition get_one (v : option string) : M Row.t :=
  called (CallGetOne v) ;;;
  t <- get_table ;;
  lift (one (where_vin v t)).

(** [self.get(item_id)], used by [update] and [delete]. *)
Definition get (item_id : option Z) : M Row.t :=
  t <- get_table ;;
  lift (one (where_id item_id t)).

(** The row an INSERT of [data] writes, [None] when a NOT NULL column
    would receive no value.  [seq] is the next value of the sequence. *)
Definition insert_row (seq : Z) (data : MotorcycleModel.t) : option Row.t :=
  match read (MotorcycleModel.vin data),
        read (MotorcycleModel.motorcycle_type data),
        read (MotorcycleModel.odometer_value data),
        read (MotorcycleModel.odometer_unit data),
        read (MotorcycleModel.is_electric data),
        read (MotorcycleModel.number_of_seats data) with
  | Some v, Some ty, Some ov, Some ou, Some el, Some n =>
      Some {| Row.id := match read (MotorcycleModel.id data) with
                        | Some i => i
                        | None => seq
                        end;
              Row.vin := v;
              Row.motorcycle_type := ty;
              Row.odometer_value := ov;
              Row.odometer_unit := ou;
              Row.is_electric := el;
              Row.number_of_seats := n |}
  | _, _, _, _, _, _ => None
  end.

Definition vin_taken (v : string) (l : list Row.t) : bool :=
  existsb (fun r => String.eqb (Row.vin r) v) l.

Definition id_taken (i : Z) (l : list Row.t) : bool :=
  existsb (fun r => Row.id r =? i) l.

(** [self.add(data, auto_refresh=True, auto_commit=True)]: INSERT, commit,
    and return the refreshed instance.  A violated constraint raises and
    leaves the table as it was. *)
Definition add (data : MotorcycleModel.t) : M Row.t :=
  called CallAdd ;;;
  t <- get_table ;;
  match insert_row (next_id t) data with
  | None => raise IntegrityError
  | Some r =>
      if vin_taken (Row.vin r) (rows t) || id_taken (Row.id r) (rows t)
      then raise IntegrityError
      else
        commit {| rows := rows t ++ [r];
                  next_id := match read (MotorcycleModel.id data) with
                             | Some _ => next_id t
                             | None => next_id t + 1
                             end |} ;;;
        ret r
  end.

(** One column of [Session.merge]: an attribute that was never assigned
    on the incoming instance leaves the persistent value alone; an assigned
    one overwrites it.  [None] is a NULL for a NOT NULL column. *)
Definition merge_col {A : Type} (old : A) (a : attr A) : option A :=
  match a with
  | Unset => Some old
  | SetTo v => v
  end.

Definition merge (old : Row.t) (data : MotorcycleModel.t) : option Row.t :=
  match merge_col (Row.id old) (MotorcycleModel.id data),
        merge_col (Row.vin old) (MotorcycleModel.vin data),
        merge_col (Row.motorcycle_type old) (MotorcycleModel.motorcycle_type data),
        merge_col (Row.odometer_value old) (MotorcycleModel.odometer_value data),
        merge_col (Row.odometer_unit old) (MotorcycleModel.odometer_unit data),
        merge_col (Row.is_electric old) (MotorcycleModel.is_electric data),
        merge_col (Row.number_of_seats old) (MotorcycleModel.number_of_seats data) with
  | Some i, Some v, Some ty, Some ov, Some ou, Some el, Some n =>
      Some {| Row.id := i;
              Row.vin := v;
              Row.motorcycle_type := ty;
              Row.odometer_value := ov;
              Row.odometer_unit := ou;
              Row.is_electric := el;
              Row.number_of_seats := n |}
  | _, _, _, _, _, _, _ => None
  end.

Definition replace_id (i : Z) (r' : Row.t) (l : list Row.t) : list Row.t :=
  map (fun r => if Row.id r =? i then r' else r) l.

Definition others (i : Z) (l : list Row.t) : list Row.t :=
  filter (fun r => negb (Row.id r =? i)) l.

(** [self.update(data, auto_refresh=True, auto_commit=True)]: load the row
    whose primary key is [data.id] (NotFound when there is none), merge the
    incoming instance into it, UPDATE and commit, return the refreshed
    instance. *)
Definition update (data : MotorcycleModel.t) : M Row.t :=
  called (CallUpdate data) ;;;
  existing <- get (read (MotorcycleModel.id data)) ;;
  t <- get_table ;;
  match merge existing data with
  | None => raise IntegrityError
  | Some r' =>
      if vin_taken (Row.vin r') (others (Row.id existing) (rows t))
      then raise IntegrityError
      else
        commit {| rows := replace_id (Row.id existing) r' (rows t);
                  next_id := next_id t |} ;;;
        ret r'
  end.

(** [self.delete(item_id, auto_commit=True)]: load the row by primary key
    (NotFound when there is none), DELETE and commit, return it. *)
Definition delete (item_id : Z) : M Row.t :=
  called (CallDelete item_id) ;;;
  existing <- get (Some item_id) ;;
  t <- get_table ;;
  commit {| rows := others item_id (rows t); next_id := next_id t |} ;;;
  ret existing.

(** [self.list(order_by=(column, is_desc))]: every row, ordered by the
    column; the flag of the ordering pair selects descending order. *)
Definition list (order_by : (Row.t -> string) * bool) : M (list Row.t) :=
  called CallList ;;;
  t <- get_table ;;
  ret (sort_by (fst order_by) (snd order_by) (rows t)).

End Engine.

(* ================================================================= *)
(** ** MotorcycleRepository (lines 76-127) *)

Module MotorcycleRepository.

Definition list_motorcycles : M (list Row.t) :=
  Engine.list (Row.vin, false).

Definition get_motorcycle_by_vin (vin : string) : M Row.t :=
  Engine.get_one (Some vin).

Definition create_motorcycle (data : MotorcycleModel.t) : M Row.t :=
  Engine.add data.

Definition update_motorcycle (data : MotorcycleModel.t) : M Row.t :=
  existing_db_obj <- Engine.get_one (read (MotorcycleModel.vin data)) ;;
  let data := set_id data (Row.id existing_db_obj) in
  Engine.update data.

Definition delete_motorcycle_by_vin (vin : string) : M unit :=
  db_obj <- Engine.get_one (Some vin) ;;
  Engine.delete (Row.id db_obj) ;;;
  ret tt.

End MotorcycleRepository.

(* ================================================================= *)
(** ** MotorcycleService (lines 130-193) *)

Module MotorcycleService.

(** The argument of [update_motorcycle] is
    [MotorcycleCreate | MotorcycleUpdate]. *)
Inductive update_data : Type :=
| OfCreate (c : MotorcycleCreate.t)
| OfUpdate (u : MotorcycleUpdate.t).

(** [data.vin]. *)
Definition data_vin (data : update_data) : option string :=
  match data with
  | OfCreate c => Some (MotorcycleCreate.vin c)
  | OfUpdate u => read (MotorcycleUpdate.vin u)
  end.

Definition list_motorcycles : M (list MotorcycleResponse.t) :=
  db_objs <- MotorcycleRepository.list_motorcycles ;;
  ret (map MotorcycleResponse.model_validate db_objs).

Definition get_motorcycle_by_vin (vin : string) : M MotorcycleResponse.t :=
  db_obj <- MotorcycleRepository.get_motorcycle_by_vin vin ;;
  ret (MotorcycleResponse.model_validate db_obj).

Definition create_motorcycle (data : MotorcycleCreate.t)
  : M MotorcycleResponse.t :=
  let db_data := MotorcycleModel_init (MotorcycleCreate.model_dump data) in
  db_obj <- MotorcycleRepository.create_motorcycle db_data ;;
  ret (MotorcycleResponse.model_validate db_obj).

Definition mismatch : Exception :=
  ValidationException "provided data does not match VIN in path.".

Definition update_motorcycle (vin : string) (data : update_data)
  : M MotorcycleResponse.t :=
  if str_ne vin (data_vin data) then raise mismatch
  else
    let data_dict :=
      match data with
      | OfUpdate u => MotorcycleUpdate.model_dump_exclude_unset u
      | OfCreate c => MotorcycleCreate.model_dump c
      end in
    let db_data := MotorcycleModel_init data_dict in
    db_obj <- MotorcycleRepository.update_motorcycle db_data ;;
    ret (MotorcycleResponse.model_validate db_obj).

Definition delete_motorcycle_by_vin (vin : string) : M unit :=
  MotorcycleRepository.delete_motorcycle_by_vin vin.

End MotorcycleService.

(* ================================================================= *)
(** ** MotorcycleController (lines 206-275) *)

Module MotorcycleController.

Definition list_motorcycles : M (list MotorcycleResponse.t) :=
  MotorcycleService.list_motorcycles.

Definition get_motorcycle_by_vin (vin : string) : M MotorcycleResponse.t :=
  MotorcycleService.get_motorcycle_by_vin vin.

Definition create_motorcycle (data : MotorcycleCreate.t)
  : M MotorcycleResponse.t :=
  MotorcycleService.create_motorcycle data.

(** The PUT handler; its body is declared [data: MotorcycleUpdate]. *)
Definition update_motorcycle (vin : string) (data : MotorcycleUpdate.t)
  : M MotorcycleResponse.t :=
  MotorcycleService.update_motorcycle vin (MotorcycleService.OfUpdate data).

(** The PATCH handler. *)
Definition partially_update_motorcycle (vin : string)
           (data : MotorcycleUpdate.t) : M MotorcycleResponse.t :=
  MotorcycleService.update_motorcycle vin (MotorcycleService.OfUpdate data).

Definition delete_motorcycle_by_vin (vin : string) : M unit :=
  MotorcycleService.delete_motorcycle_by_vin vin.

(** The status line of a response: the handler decorator's default on
    success ([@post] 201, [@delete] 204, otherwise 200), and the framework's
    translation of an exception otherwise. *)
Definition status_code {A : Type} (on_success : Z) (r : Exception + A) : Z :=
  match r with
  | inr _ => on_success
  | inl (ValidationException _) => 400
  | inl NotFoundError => 404
  | inl IntegrityError => 409
  | inl MultipleResultsFoundError => 500
  end.

End MotorcycleController.

(* ================================================================= *)
(** ** Table invariant and scenario data *)

(** The constraints the schema declares: the primary key is unique and was
    drawn from the sequence, and [vin] is unique. *)
Definition wf (t : Table) : Prop :=
  NoDup (map Row.id (rows t)) /\
  NoDup (map Row.vin (rows t)) /\
  Forall (fun r => Row.id r < next_id t) (rows t).

Definition with_call (s : Session) (c : Call) : Session :=
  {| table := table s; calls := calls s ++ [c] |}.

Definition empty_session : Session :=
  {| table := {| rows := []; next_id := 1 |}; calls := [] |}.

(** The six operations of the HTTP surface, and the session a sequence of
    requests leaves behind when run from the empty table. *)
Inductive Request : Type :=
| GetAll
| GetOne (vin : string)
| Post (data : MotorcycleCreate.t)
| Put (vin : string) (data : MotorcycleUpdate.t)
| Patch (vin : string) (data : MotorcycleUpdate.t)
| Delete (vin : string).

Definition handle (s : Session) (r : Request) : Session :=
  match r with
  | GetAll => snd (MotorcycleController.list_motorcycles s)
  | GetOne vin => snd (MotorcycleController.get_motorcycle_by_vin vin s)
  | Post data => snd (MotorcycleController.create_motorcycle data s)
  | Put vin data => snd (MotorcycleController.update_motorcycle vin data s)
  | Patch vin data =>
      snd (MotorcycleController.partially_update_motorcycle vin data s)
  | Delete vin => snd (MotorcycleController.delete_motorcycle_by_vin vin s)
  end.

Definition serve (rs : list Request) : Session :=
  fold_left handle rs empty_session.

(** The create body of the scenario in section 8 of the specification. *)
Definition cruiser : MotorcycleCreate.t :=
  {| MotorcycleCreate.vin := "VIN123";
     MotorcycleCreate.motorcycle_type := "cruiser";
     MotorcycleCreate.odometer_value := 1000%float;
     MotorcycleCreate.odometer_unit := "km";
     MotorcycleCreate.is_electric := false;
     MotorcycleCreate.number_of_seats := 2 |}.

Definition scooter : MotorcycleCreate.t :=
  {| MotorcycleCreate.vin := "VIN456";
     MotorcycleCreate.motorcycle_type := "scooter";
     MotorcycleCreate.odometer_value := 12.5%float;
     MotorcycleCreate.odometer_unit := "mi";
     MotorcycleCreate.is_electric := true;
     MotorcycleCreate.number_of_seats := 1 |}.

Definition cruiser_row : Row.t :=
  {| Row.id := 1;
     Row.vin := "VIN123";
     Row.motorcycle_type := "cruiser";
     Row.odometer_value := 1000%float;
     Row.odometer_unit := "km";
     Row.is_electric := false;
     Row.number_of_seats := 2 |}.

Definition scooter_row : Row.t :=
  {| Row.id := 2;
     Row.vin := "VIN456";
     Row.motorcycle_type := "scooter";
     Row.odometer_value := 12.5%float;
     Row.odometer_unit := "mi";
     Row.is_electric := true;
     Row.number_of_seats := 1 |}.

(** The session after POSTing [cruiser], and after POSTing [scooter] too. *)
Definition one_stored : Session :=
  snd (MotorcycleController.create_motorcycle cruiser empty_session).

Definition two_stored : Session :=
  snd (MotorcycleController.create_motorcycle scooter one_stored).

(** The update body [{vin: VIN123, number_of_seats: 1}] of the scenario:
    the four other fields are omitted. *)
Definition seats_only : MotorcycleUpdate.t :=
  {| MotorcycleUpdate.vin := Val "VIN123";
     MotorcycleUpdate.motorcycle_type := Unset;
     MotorcycleUpdate.odometer_value := Unset;
     MotorcycleUpdate.odometer_unit := Unset;
     MotorcycleUpdate.is_electric := Unset;
     MotorcycleUpdate.number_of_seats := Val 1 |}.

(** The row [cruiser_row] with its seats set to 1, and the session after
    PATCHing [seats_only] onto [one_stored]. *)
Definition patched_row : Row.t :=
  {| Row.id := 1;
     Row.vin := "VIN123";
     Row.motorcycle_type := "cruiser";
     Row.odometer_value := 1000%float;
     Row.odometer_unit := "km";
     Row.is_electric := false;
     Row.number_of_seats := 1 |}.

Definition one_patched : Session :=
  snd (MotorcycleController.partially_update_motorcycle
         "VIN123" seats_only one_stored).

(** The same two motorcycles POSTed in the other order. *)
Definition two_stored_rev : Session :=
  snd (MotorcycleController.create_motorcycle
         cruiser
         (snd (MotorcycleController.create_motorcycle scooter empty_session))).

(** A body that does not restate the vin. *)
Definition no_vin : MotorcycleUpdate.t :=
  {| MotorcycleUpdate.vin := Unset;
     MotorcycleUpdate.motorcycle_type := Val "tourer";
     MotorcycleUpdate.odometer_value := Unset;
     MotorcycleUpdate.odometer_unit := Unset;
     MotorcycleUpdate.is_electric := Unset;
     MotorcycleUpdate.number_of_seats := Unset |}.




(** The vins a GET of the collection returns, in the order returned. *)
Definition listed_vins (s : Session) : Exception + list string :=
  match fst (MotorcycleController.list_motorcycles s) with
  | inl e => inl e
  | inr l => inr (map MotorcycleResponse.vin l)
  end.

(** The vins of a listing, and the order a descending listing has. *)
Definition vins (l : list MotorcycleResponse.t) : list string :=
  map MotorcycleResponse.vin l.

Definition descending (l : list string) : Prop :=
  Sorted (fun x y => String.leb y x = true) l.

Definition ascending (l : list string) : Prop :=
  Sorted (fun x y => String.leb x y = true) l.

(** The instance [db_data] that [update_motorcycle] builds from its payload
    (lines 179-181). *)
Definition instance_of (data : MotorcycleService.update_data)
  : MotorcycleModel.t :=
  MotorcycleModel_init
    match data with
    | MotorcycleService.OfUpdate u =>
        MotorcycleUpdate.model_dump_exclude_unset u
    | MotorcycleService.OfCreate c => MotorcycleCreate.model_dump c
    end.


Definition exception_of {A : Type} (r : Exception + A) : option Exception :=
  match r with
  | inl e => Some e
  | inr _ => None
  end.

(** The exception a request ends with, if it ends with one. *)
Definition raised (s : Session) (r : Request) : option Exception :=
  match r with
  | GetAll => exception_of (fst (MotorcycleController.list_motorcycles s))
  | GetOne vin =>
      exception_of (fst (MotorcycleController.get_motorcycle_by_vin vin s))
  | Post data =>
      exception_of (fst (MotorcycleController.create_motorcycle data s))
  | Put vin data =>
      exception_of (fst (MotorcycleController.update_motorcycle vin data s))
  | Patch vin data =>
      exception_of
        (fst (MotorcycleController.partially_update_motorcycle vin data s))
  | Delete vin =>
      exception_of (fst (MotorcycleController.delete_motorcycle_by_vin vin s))
  end.

(** A full payload for VIN123 that changes every other field. *)
Definition rebuilt : MotorcycleCreate.t :=
  {| MotorcycleCreate.vin := "VIN123";
     MotorcycleCreate.motorcycle_type := "tourer";
     MotorcycleCreate.odometer_value := 0.5%float;
     MotorcycleCreate.odometer_unit := "mi";
     MotorcycleCreate.is_electric := true;
     MotorcycleCreate.number_of_seats := 1 |}.

(** The body [{vin: VIN123, odometer_value: null}]. *)
Definition null_odometer : MotorcycleUpdate.t :=
  {| MotorcycleUpdate.vin := Val "VIN123";
     MotorcycleUpdate.motorcycle_type := Unset;
     MotorcycleUpdate.odometer_value := SetTo None;
     MotorcycleUpdate.odometer_unit := Unset;
     MotorcycleUpdate.is_electric := Unset;
     MotorcycleUpdate.number_of_seats := Unset |}.

(** The rows of [two_stored], held in the other order. *)
Definition two_stored_swapped : Session :=
  {| table := {| rows := [scooter_row; cruiser_row]; next_id := 3 |};
     calls := [] |}.

(* ================================================================= *)
(** ** Lists of rows *)

Section ListFacts.

Variable A : Type.
Variable f : A -> bool.

Lemma existsb_false_filter (l : list A) :
  existsb f l = false -> filter f l = [].
Proof.
  induction l as [|x l IH]; simpl; [reflexivity|].
  destruct (f x); simpl; [discriminate|exact IH].
Qed.

Lemma filter_nil_existsb (l : list A) :
  filter f l = [] -> existsb f l = false.
Proof.
  induction l as [|x l IH]; simpl; [reflexivity|].
  destruct (f x); simpl; [discriminate|exact IH].
Qed.

Lemma existsb_false_forall (l : list A) :
  (forall x, In x l -> f x = false) -> existsb f l = false.
Proof.
  induction l as [|x l IH]; simpl; intros H; [reflexivity|].
  rewrite (H x (or_introl eq_refl)). simpl. apply IH.
  intros y Hy. apply H. right. exact Hy.
Qed.

Lemma filter_single_unique (l : list A) (r x : A) :
  filter f l = [r] -> In x l -> f x = true -> x = r.
Proof.
  intros Hf Hin Hx.
  assert (Hm : In x (filter f l)) by (apply filter_In; split; assumption).
  rewrite Hf in Hm. destruct Hm as [Hm|[]]. symmetry. exact Hm.
Qed.

Lemma filter_single_in (l : list A) (r : A) :
  filter f l = [r] -> In r l /\ f r = true.
Proof.
  intros Hf. apply filter_In. rewrite Hf. left. reflexivity.
Qed.

End ListFacts.

Lemma one_single (l : list Row.t) (r : Row.t) :
  Engine.one l = inr r -> l = [r].
Proof.
  destruct l as [|x [|y l]]; simpl; intros H; try discriminate.
  injection H as ->. reflexivity.
Qed.

Lemma one_not_found (l : list Row.t) :
  Engine.one l = inl NotFoundError -> l = [].
Proof.
  destruct l as [|x [|y l]]; simpl; intros H; try discriminate. reflexivity.
Qed.

Lemma in_map_id (r : Row.t) (l : list Row.t) :
  In r l -> In (Row.id r) (map Row.id l).
Proof. apply in_map. Qed.

(** Under a unique primary key, selecting by the key of a stored row yields
    that row alone. *)
Lemma where_id_unique (l : list Row.t) (r : Row.t) :
  NoDup (map Row.id l) -> In r l ->
  filter (fun x => Row.id x =? Row.id r) l = [r].
Proof.
  induction l as [|x l IH]; simpl; intros Hnd Hin; [contradiction|].
  inversion Hnd as [|? ? Hnotin Hnd']; subst.
  destruct Hin as [->|Hin].
  - rewrite Z.eqb_refl. f_equal.
    apply existsb_false_filter. apply existsb_false_forall.
    intros y Hy. apply Z.eqb_neq. intros Heq.
    apply Hnotin. rewrite <- Heq. apply in_map_id. exact Hy.
  - destruct (Row.id x =? Row.id r) eqn:E.
    + exfalso. apply Z.eqb_eq in E. apply Hnotin. rewrite E.
      apply in_map_id. exact Hin.
    + apply IH; assumption.
Qed.

Lemma replace_id_ids (i : Z) (r' : Row.t) (l : list Row.t) :
  Row.id r' = i ->
  map Row.id (Engine.replace_id i r' l) = map Row.id l.
Proof.
  intros Hid. unfold Engine.replace_id. rewrite map_map.
  apply map_ext_in. intros x _.
  destruct (Row.id x =? i) eqn:E; [|reflexivity].
  apply Z.eqb_eq in E. congruence.
Qed.

Lemma replace_id_absent (i : Z) (r' : Row.t) (l : list Row.t) :
  ~ In i (map Row.id l) -> Engine.replace_id i r' l = l.
Proof.
  induction l as [|x l IH]; simpl; intros Hn; [reflexivity|].
  destruct (Row.id x =? i) eqn:E.
  - exfalso. apply Hn. left. apply Z.eqb_eq. exact E.
  - f_equal. apply IH. intros H. apply Hn. right. exact H.
Qed.

(** Replacing the only row that carries a vin by a row with the same vin and
    key leaves it the only row with that vin. *)
Lemma replace_id_where_vin (v : string) (old new : Row.t) (l : list Row.t) :
  NoDup (map Row.id l) ->
  filter (fun r => String.eqb (Row.vin r) v) l = [old] ->
  Row.vin new = v ->
  filter (fun r => String.eqb (Row.vin r) v)
         (Engine.replace_id (Row.id old) new l) = [new].
Proof.
  intros Hnd Hf Hv. revert Hnd Hf.
  induction l as [|x l IH]; simpl; intros Hnd Hf; [discriminate|].
  inversion Hnd as [|? ? Hnotin Hnd']; subst.
  destruct (String.eqb (Row.vin x) (Row.vin new)) eqn:E.
  - injection Hf as -> Hrest.
    rewrite Z.eqb_refl. simpl. rewrite String.eqb_refl. f_equal.
    rewrite replace_id_absent by exact Hnotin. exact Hrest.
  - assert (Hin : In old l).
    { apply (filter_single_in _ _ _ _ Hf). }
    destruct (Row.id x =? Row.id old) eqn:Eid.
    + exfalso. apply Z.eqb_eq in Eid. apply Hnotin. rewrite Eid.
      apply in_map_id. exact Hin.
    + simpl. rewrite E. apply IH; assumption.
Qed.

(** No row other than the one found by vin carries that vin. *)
Lemma others_vin_free (v : string) (old : Row.t) (l : list Row.t) :
  filter (fun r => String.eqb (Row.vin r) v) l = [old] ->
  Engine.vin_taken v (Engine.others (Row.id old) l) = false.
Proof.
  intros Hf. unfold Engine.vin_taken. apply existsb_false_forall.
  intros x Hx. unfold Engine.others in Hx. apply filter_In in Hx.
  destruct Hx as [Hin Hne].
  destruct (String.eqb (Row.vin x) v) eqn:E; [|reflexivity].
  rewrite (filter_single_unique _ _ _ _ _ Hf Hin E) in Hne.
  rewrite Z.eqb_refl in Hne. discriminate.
Qed.

(* ================================================================= *)
(** ** What one call of each repository method does *)

Lemma get_one_run (v : option string) (s : Session) :
  Engine.get_one v s =
  (Engine.one (Engine.where_vin v (table s)), with_call s (CallGetOne v)).
Proof. reflexivity. Qed.

Lemma str_ne_false (x : string) (y : option string) :
  str_ne x y = false <-> y = Some x.
Proof.
  unfold str_ne. destruct y as [s|]; split; intros H; try discriminate.
  - apply negb_false_iff in H. apply String.eqb_eq in H. congruence.
  - injection H as ->. rewrite String.eqb_refl. reflexivity.
Qed.

Lemma str_ne_true (x : string) (y : option string) :
  y <> Some x -> str_ne x y = true.
Proof.
  intros H. destruct (str_ne x y) eqn:E; [reflexivity|].
  apply str_ne_false in E. contradiction.
Qed.

(* ================================================================= *)
(** ** The validation gate of [update_motorcycle] *)

(** C1: whenever the payload's vin differs from the path vin,
    [update_motorcycle] raises the ValidationException and hands back the
    session it was given: the table is the same and no repository method was
    called, whether or not a row with the path vin exists.  The same holds of
    the PUT and of the PATCH handler. *)
Theorem update_rejects_vin_mismatch
        (vin : string) (data : MotorcycleService.update_data) (s : Session) :
  MotorcycleService.data_vin data <> Some vin ->
  MotorcycleService.update_motorcycle vin data s
    = (inl MotorcycleService.mismatch, s)
  /\ (forall u, data = MotorcycleService.OfUpdate u ->
        MotorcycleController.update_motorcycle vin u s
          = (inl MotorcycleService.mismatch, s)
        /\ MotorcycleController.partially_update_motorcycle vin u s
          = (inl MotorcycleService.mismatch, s)).
Proof.
  intros Hne.
  assert (Hgate : MotorcycleService.update_motorcycle vin data s
                  = (inl MotorcycleService.mismatch, s)).
  { unfold MotorcycleService.update_motorcycle.
    rewrite (str_ne_true _ _ Hne). reflexivity. }
  split; [exact Hgate|].
  intros u ->. split; exact Hgate.
Qed.

Lemma update_rejects_vin_mismatch_witness :
  MotorcycleService.update_motorcycle
    "VIN999" (MotorcycleService.OfUpdate seats_only) two_stored
    = (inl MotorcycleService.mismatch, two_stored)
  /\ (forall u, MotorcycleService.OfUpdate seats_only
                = MotorcycleService.OfUpdate u ->
        MotorcycleController.update_motorcycle "VIN999" u two_stored
          = (inl MotorcycleService.mismatch, two_stored)
        /\ MotorcycleController.partially_update_motorcycle "VIN999" u two_stored
          = (inl MotorcycleService.mismatch, two_stored)).
Proof.
  apply (@update_rejects_vin_mismatch
           "VIN999" (MotorcycleService.OfUpdate seats_only) two_stored).
  simpl. discriminate.
Defined.

(** C10: a payload that omits the vin reads as [None], which differs from
    every path vin: [update_motorcycle] raises the ValidationException with
    the session untouched, under PUT and under PATCH alike. *)
Theorem update_without_vin_rejected
        (vin : string) (u : MotorcycleUpdate.t) (s : Session) :
  MotorcycleUpdate.vin u = Unset ->
  MotorcycleService.update_motorcycle vin (MotorcycleService.OfUpdate u) s
    = (inl MotorcycleService.mismatch, s)
  /\ MotorcycleController.update_motorcycle vin u s
    = (inl MotorcycleService.mismatch, s)
  /\ MotorcycleController.partially_update_motorcycle vin u s
    = (inl MotorcycleService.mismatch, s).
Proof.
  intros Hu.
  assert (Hgate : MotorcycleService.update_motorcycle
                    vin (MotorcycleService.OfUpdate u) s
                  = (inl MotorcycleService.mismatch, s)).
  { unfold MotorcycleService.update_motorcycle. simpl. rewrite Hu. reflexivity. }
  repeat split; exact Hgate.
Qed.

Lemma update_without_vin_rejected_witness :
  MotorcycleService.update_motorcycle
    "VIN123" (MotorcycleService.OfUpdate no_vin) one_stored
    = (inl MotorcycleService.mismatch, one_stored)
  /\ MotorcycleController.update_motorcycle "VIN123" no_vin one_stored
    = (inl MotorcycleService.mismatch, one_stored)
  /\ MotorcycleController.partially_update_motorcycle "VIN123" no_vin one_stored
    = (inl MotorcycleService.mismatch, one_stored).
Proof.
  apply (@update_without_vin_rejected "VIN123" no_vin one_stored).
  reflexivity.
Defined.

(** C9: the PUT handler and the PATCH handler take the same body type and
    make the same service call, so they return the same result and leave the
    same session, hence the same status, on every input. *)
Theorem put_and_patch_agree
        (vin : string) (data : MotorcycleUpdate.t) (s : Session) :
  MotorcycleController.update_motorcycle vin data s
    = MotorcycleController.partially_update_motorcycle vin data s
  /\ MotorcycleController.update_motorcycle vin data s
    = MotorcycleService.update_motorcycle
        vin (MotorcycleService.OfUpdate data) s
  /\ MotorcycleController.status_code
       200 (fst (MotorcycleController.update_motorcycle vin data s))
    = MotorcycleController.status_code
       200 (fst (MotorcycleController.partially_update_motorcycle vin data s)).
Proof. repeat split. Qed.

(* ================================================================= *)
(** ** Conflicts and missing rows *)



(** Deleting by vin, when it succeeds, leaves no row with that vin. *)
Lemma delete_removes_vin (vin : string) (s s' : Session) :
  MotorcycleService.delete_motorcycle_by_vin vin s = (inr tt, s') ->
  Engine.vin_taken vin (rows (table s')) = false.
Proof.
  unfold MotorcycleService.delete_motorcycle_by_vin,
    MotorcycleRepository.delete_motorcycle_by_vin, bind.
  rewrite get_one_run.
  destruct (Engine.one (Engine.where_vin (Some vin) (table s)))
    as [e|old] eqn:Hone; [discriminate|].
  apply one_single in Hone.
  unfold Engine.delete, Engine.get, bind, called, get_table, Engine.lift,
    commit, ret. simpl.
  destruct (Engine.one
              (filter (fun r => Row.id r =? Row.id old) (rows (table s))))
    as [e|r]; [discriminate|].
  intros H. injection H as <-. simpl.
  apply others_vin_free. exact Hone.
Qed.

(** C6: for a vin under which nothing is stored, get, update (with the
    payload restating the vin) and delete each raise NotFoundError and leave
    the table as it was; and after a successful delete, a second delete of
    the same vin raises NotFoundError as well. *)
Theorem absent_vin_not_found
        (vin : string) (data : MotorcycleService.update_data)
        (s s1 s2 : Session) :
  Engine.vin_taken vin (rows (table s)) = false ->
  MotorcycleService.data_vin data = Some vin ->
  MotorcycleService.delete_motorcycle_by_vin vin s1 = (inr tt, s2) ->
  MotorcycleService.get_motorcycle_by_vin vin s
    = (inl NotFoundError, with_call s (CallGetOne (Some vin)))
  /\ MotorcycleService.update_motorcycle vin data s
    = (inl NotFoundError, with_call s (CallGetOne (Some vin)))
  /\ MotorcycleService.delete_motorcycle_by_vin vin s
    = (inl NotFoundError, with_call s (CallGetOne (Some vin)))
  /\ MotorcycleService.delete_motorcycle_by_vin vin s2
    = (inl NotFoundError, with_call s2 (CallGetOne (Some vin))).
Proof.
  intros Habsent Hvin Hdel.
  assert (Hmiss : forall s0, Engine.vin_taken vin (rows (table s0)) = false ->
            Engine.get_one (Some vin) s0
            = (inl NotFoundError, with_call s0 (CallGetOne (Some vin)))).
  { intros s0 H0. rewrite get_one_run. simpl.
    unfold Engine.vin_taken in H0.
    rewrite (existsb_false_filter _ _ _ H0). reflexivity. }
  assert (Hdelete : forall s0, Engine.vin_taken vin (rows (table s0)) = false ->
            MotorcycleService.delete_motorcycle_by_vin vin s0
            = (inl NotFoundError, with_call s0 (CallGetOne (Some vin)))).
  { intros s0 H0.
    unfold MotorcycleService.delete_motorcycle_by_vin,
      MotorcycleRepository.delete_motorcycle_by_vin, bind.
    rewrite (Hmiss s0 H0). reflexivity. }
  split; [|split; [|split]].
  - unfold MotorcycleService.get_motorcycle_by_vin,
      MotorcycleRepository.get_motorcycle_by_vin, bind.
    rewrite (Hmiss s Habsent). reflexivity.
  - unfold MotorcycleService.update_motorcycle.
    assert (Hgate : str_ne vin (MotorcycleService.data_vin data) = false)
      by (apply str_ne_false; exact Hvin).
    rewrite Hgate.
    unfold MotorcycleRepository.update_motorcycle, bind.
    assert (Hread : read (MotorcycleModel.vin
                            (MotorcycleModel_init
                               match data with
                               | MotorcycleService.OfCreate c =>
                                   MotorcycleCreate.model_dump c
                               | MotorcycleService.OfUpdate u =>
                                   MotorcycleUpdate.model_dump_exclude_unset u
                               end)) = Some vin).
    { destruct data; simpl in *; exact Hvin. }
    rewrite Hread, (Hmiss s Habsent). reflexivity.
  - apply Hdelete. exact Habsent.
  - apply Hdelete. apply (delete_removes_vin _ _ _ Hdel).
Qed.

Lemma absent_vin_not_found_witness :
  MotorcycleService.get_motorcycle_by_vin "VIN123" empty_session
    = (inl NotFoundError,
       with_call empty_session (CallGetOne (Some "VIN123")))
  /\ MotorcycleService.update_motorcycle
       "VIN123" (MotorcycleService.OfUpdate seats_only) empty_session
    = (inl NotFoundError,
       with_call empty_session (CallGetOne (Some "VIN123")))
  /\ MotorcycleService.delete_motorcycle_by_vin "VIN123" empty_session
    = (inl NotFoundError,
       with_call empty_session (CallGetOne (Some "VIN123")))
  /\ MotorcycleService.delete_motorcycle_by_vin
       "VIN123"
       (snd (MotorcycleService.delete_motorcycle_by_vin "VIN123" one_stored))
    = (inl NotFoundError,
       with_call
         (snd (MotorcycleService.delete_motorcycle_by_vin "VIN123" one_stored))
         (CallGetOne (Some "VIN123"))).
Proof.
  apply (@absent_vin_not_found
           "VIN123" (MotorcycleService.OfUpdate seats_only)
           empty_session one_stored
           (snd (MotorcycleService.delete_motorcycle_by_vin
                   "VIN123" one_stored))).
  - reflexivity.
  - reflexivity.
  - vm_compute. reflexivity.
Defined.

(* ================================================================= *)
(** ** Create, then read back *)



Lemma one_stored_wf : wf (table one_stored).
Proof.
  repeat split; vm_compute.
  - constructor; [intros []|constructor].
  - constructor; [intros []|constructor].
  - constructor; [reflexivity|constructor].
Qed.


(* ================================================================= *)
(** ** Updates *)

Lemma merge_set_id (old : Row.t) (data : MotorcycleModel.t) (v : string)
      (r' : Row.t) :
  read (MotorcycleModel.vin data) = Some v ->
  Engine.merge old (set_id data (Row.id old)) = Some r' ->
  Row.id r' = Row.id old /\ Row.vin r' = v.
Proof.
  intros Hv. unfold Engine.merge, set_id. simpl.
  destruct (MotorcycleModel.vin data) as [|[x|]]; simpl in Hv; try discriminate.
  injection Hv as ->. simpl.
  destruct (Engine.merge_col _ (MotorcycleModel.motorcycle_type data));
    [|discriminate].
  destruct (Engine.merge_col _ (MotorcycleModel.odometer_value data));
    [|discriminate].
  destruct (Engine.merge_col _ (MotorcycleModel.odometer_unit data));
    [|discriminate].
  destruct (Engine.merge_col _ (MotorcycleModel.is_electric data));
    [|discriminate].
  destruct (Engine.merge_col _ (MotorcycleModel.number_of_seats data));
    [|discriminate].
  intros H. injection H as <-. split; reflexivity.
Qed.

(** The repository's update on a row that [get_one] finds: one lookup by
    vin, then one [update] of the instance carrying the found id.  The
    outcome is decided by the merge alone. *)
Lemma repository_update_run
      (data : MotorcycleModel.t) (s : Session) (old : Row.t) :
  NoDup (map Row.id (rows (table s))) ->
  Engine.one (Engine.where_vin (read (MotorcycleModel.vin data)) (table s))
    = inr old ->
  MotorcycleRepository.update_motorcycle data s =
  match Engine.merge old (set_id data (Row.id old)) with
  | None =>
      (inl IntegrityError,
       with_call (with_call s (CallGetOne (read (MotorcycleModel.vin data))))
                 (CallUpdate (set_id data (Row.id old))))
  | Some r' =>
      (inr r',
       {| table :=
            {| rows := Engine.replace_id (Row.id old) r' (rows (table s));
               next_id := next_id (table s) |};
          calls :=
            (calls s ++ [CallGetOne (read (MotorcycleModel.vin data))])
              ++ [CallUpdate (set_id data (Row.id old))] |})
  end.
Proof.
  intros Hnd Hone.
  unfold MotorcycleRepository.update_motorcycle, bind.
  rewrite get_one_run, Hone.
  apply one_single in Hone.
  destruct (read (MotorcycleModel.vin data)) as [v|] eqn:Hv;
    simpl in Hone; [|discriminate].
  destruct (filter_single_in _ _ _ _ Hone) as [Hin _].
  unfold Engine.update, Engine.get, bind, called, get_table, Engine.lift,
    commit, ret, with_call. simpl.
  rewrite (where_id_unique _ _ Hnd Hin). simpl.
  destruct (Engine.merge old (set_id data (Row.id old))) as [r'|] eqn:Hm;
    [|reflexivity].
  destruct (merge_set_id _ _ _ _ Hv Hm) as [_ Hvin].
  rewrite Hvin, (others_vin_free _ _ _ Hone). reflexivity.
Qed.

(** C8: on a well-formed table, a successful update found exactly one row
    under the path vin, and the response, the row stored under that vin
    afterwards, and every other row carry the ids they had before.  The
    repository made one lookup by vin and one update, of an instance that
    carries the id of the row it found. *)
Theorem update_keeps_id
        (vin : string) (data : MotorcycleService.update_data)
        (s s' : Session) (resp : MotorcycleResponse.t) :
  wf (table s) ->
  MotorcycleService.update_motorcycle vin data s = (inr resp, s') ->
  exists old new : Row.t,
    Engine.one (Engine.where_vin (Some vin) (table s)) = inr old
    /\ Engine.one (Engine.where_vin (Some vin) (table s')) = inr new
    /\ resp = MotorcycleResponse.model_validate new
    /\ Row.id new = Row.id old
    /\ MotorcycleResponse.id resp = Row.id old
    /\ map Row.id (rows (table s')) = map Row.id (rows (table s))
    /\ next_id (table s') = next_id (table s)
    /\ exists db_data : MotorcycleModel.t,
         calls s' =
         (calls s ++ [CallGetOne (Some vin)]) ++ [CallUpdate db_data]
         /\ read (MotorcycleModel.id db_data) = Some (Row.id old).
Proof.
  intros (Hnd & _ & _) Hrun.
  unfold MotorcycleService.update_motorcycle in Hrun.
  destruct (str_ne vin (MotorcycleService.data_vin data)) eqn:Hgate;
    [discriminate|].
  apply str_ne_false in Hgate.
  set (db_data := MotorcycleModel_init
                    match data with
                    | MotorcycleService.OfCreate c =>
                        MotorcycleCreate.model_dump c
                    | MotorcycleService.OfUpdate u =>
                        MotorcycleUpdate.model_dump_exclude_unset u
                    end) in *.
  assert (Hread : read (MotorcycleModel.vin db_data) = Some vin).
  { subst db_data. destruct data; simpl in *; exact Hgate. }
  unfold bind in Hrun.
  destruct (Engine.one (Engine.where_vin (Some vin) (table s)))
    as [e|old] eqn:Hone.
  - unfold MotorcycleRepository.update_motorcycle, bind in Hrun.
    rewrite get_one_run, Hread, Hone in Hrun. discriminate.
  - rewrite (repository_update_run db_data s old Hnd) in Hrun
      by (rewrite Hread; exact Hone).
    destruct (Engine.merge old (set_id db_data (Row.id old)))
      as [new|] eqn:Hm; [|discriminate].
    destruct (merge_set_id _ _ _ _ Hread Hm) as [Hid Hvin].
    injection Hrun as <- <-. simpl.
    exists old, new. repeat split.
    + apply one_single in Hone. simpl in Hone.
      rewrite (replace_id_where_vin vin old new _ Hnd Hone Hvin).
      reflexivity.
    + exact Hid.
    + exact Hid.
    + apply replace_id_ids. exact Hid.
    + exists (set_id db_data (Row.id old)). split; [|reflexivity].
      f_equal. f_equal. f_equal. f_equal. exact Hread.
Qed.

Lemma update_keeps_id_witness :
  exists old new : Row.t,
    Engine.one (Engine.where_vin (Some "VIN123") (table one_stored))
      = inr old
    /\ Engine.one (Engine.where_vin (Some "VIN123") (table one_patched))
      = inr new
    /\ MotorcycleResponse.model_validate patched_row
       = MotorcycleResponse.model_validate new
    /\ Row.id new = Row.id old
    /\ MotorcycleResponse.id (MotorcycleResponse.model_validate patched_row)
       = Row.id old
    /\ map Row.id (rows (table one_patched))
       = map Row.id (rows (table one_stored))
    /\ next_id (table one_patched) = next_id (table one_stored)
    /\ exists db_data : MotorcycleModel.t,
         calls one_patched =
         (calls one_stored ++ [CallGetOne (Some "VIN123")])
           ++ [CallUpdate db_data]
         /\ read (MotorcycleModel.id db_data) = Some (Row.id old).
Proof.
  apply (@update_keeps_id
           "VIN123" (MotorcycleService.OfUpdate seats_only)
           one_stored one_patched
           (MotorcycleResponse.model_validate patched_row)).
  - exact one_stored_wf.
  - reflexivity.
Defined.






(* ================================================================= *)
(** ** Listing *)

Lemma before_total (d : bool) (x y : string) :
  Engine.before d x y = false -> Engine.before d y x = true.
Proof.
  unfold Engine.before. intros H.
  destruct d.
  - destruct (String.leb_total y x) as [H'|H']; congruence.
  - destruct (String.leb_total x y) as [H'|H']; congruence.
Qed.

Section Sorting.

Variable key : Row.t -> string.
Variable d : bool.

Let ordered (x y : Row.t) : Prop := Engine.before d (key x) (key y) = true.

Lemma insert_by_perm (r : Row.t) (l : list Row.t) :
  Permutation (Engine.insert_by key d r l) (r :: l).
Proof.
  induction l as [|x l IH]; simpl; [apply Permutation_refl|].
  destruct (Engine.before d (key r) (key x)); [apply Permutation_refl|].
  apply perm_trans with (x :: r :: l); [|apply perm_swap].
  apply perm_skip. exact IH.
Qed.

Lemma sort_by_perm (l : list Row.t) :
  Permutation (Engine.sort_by key d l) l.
Proof.
  induction l as [|x l IH]; simpl; [apply perm_nil|].
  apply perm_trans with (x :: Engine.sort_by key d l).
  - apply insert_by_perm.
  - apply perm_skip. exact IH.
Qed.

Lemma insert_by_hd (r x : Row.t) (l : list Row.t) :
  HdRel ordered x l -> ordered x r ->
  HdRel ordered x (Engine.insert_by key d r l).
Proof.
  intros Hhd Hxr. destruct l as [|y l]; simpl.
  - constructor. exact Hxr.
  - destruct (Engine.before d (key r) (key y)).
    + constructor. exact Hxr.
    + constructor. inversion Hhd; subst. assumption.
Qed.

Lemma insert_by_sorted (r : Row.t) (l : list Row.t) :
  Sorted ordered l -> Sorted ordered (Engine.insert_by key d r l).
Proof.
  induction l as [|x l IH]; simpl; intros Hs.
  - constructor; constructor.
  - inversion Hs as [|? ? Hs' Hhd]; subst.
    destruct (Engine.before d (key r) (key x)) eqn:E.
    + constructor; [exact Hs|]. constructor. exact E.
    + constructor; [apply IH; exact Hs'|].
      apply insert_by_hd; [exact Hhd|].
      apply before_total. exact E.
Qed.

Lemma sort_by_sorted (l : list Row.t) :
  Sorted ordered (Engine.sort_by key d l).
Proof.
  induction l as [|x l IH]; simpl; [constructor|].
  apply insert_by_sorted. exact IH.
Qed.

End Sorting.

Lemma sorted_vins (l : list Row.t) :
  Sorted (fun x y => String.leb (Row.vin x) (Row.vin y) = true) l ->
  ascending (map MotorcycleResponse.vin
                 (map MotorcycleResponse.model_validate l)).
Proof.
  unfold ascending. induction l as [|x l IH]; simpl; intros Hs.
  - constructor.
  - inversion Hs as [|? ? Hs' Hhd]; subst.
    constructor; [apply IH; exact Hs'|].
    destruct l as [|y l]; simpl; constructor.
    inversion Hhd; subst. assumption.
Qed.

(** X15: on every table the listing succeeds and returns all the stored
    records, each converted to a response, ordered by vin ascending; it
    leaves the table untouched. *)
Lemma list_motorcycles_ascending (s : Session) :
  exists l : list MotorcycleResponse.t,
    MotorcycleController.list_motorcycles s = (inr l, with_call s CallList)
    /\ Permutation
         l (map MotorcycleResponse.model_validate (rows (table s)))
    /\ ascending (map MotorcycleResponse.vin l).
Proof.
  eexists. split; [reflexivity|]. split.
  - apply Permutation_map. apply sort_by_perm.
  - apply sorted_vins.
    apply (sort_by_sorted Row.vin false (rows (table s))).
Qed.

(** C3 fails on the code: with VIN123 and VIN456 stored, in either
    insertion order, the listing returns VIN123 before VIN456.  That order is
    ascending and is not descending. *)
Theorem list_motorcycles_not_descending :
  listed_vins two_stored = inr ["VIN123"; "VIN456"]
  /\ listed_vins two_stored_rev = inr ["VIN123"; "VIN456"]
  /\ ascending ["VIN123"; "VIN456"]
  /\ ~ descending ["VIN123"; "VIN456"].
Proof.
  split; [reflexivity|]. split; [reflexivity|]. split.
  - unfold ascending. repeat constructor.
  - unfold descending. intros H.
    inversion H as [|? ? _ Hhd]; subst.
    inversion Hhd as [|? ? Hle]; subst.
    vm_compute in Hle. discriminate.
Qed.

(* ================================================================= *)
(** ** PUT with a partial body *)

(** C4 fails on the code: a PUT whose body gives only the vin and the
    number of seats is not rejected.  It runs as a partial update, answers
    200 with the merged record, and stores it. *)
Theorem put_accepts_partial_body :
  MotorcycleController.update_motorcycle "VIN123" seats_only one_stored
    = (inr (MotorcycleResponse.model_validate patched_row), one_patched)
  /\ MotorcycleController.status_code
       200 (fst (MotorcycleController.update_motorcycle
                   "VIN123" seats_only one_stored)) = 200
  /\ rows (table one_patched) = [patched_row]
  /\ MotorcycleUpdate.motorcycle_type seats_only = Unset
  /\ MotorcycleUpdate.odometer_value seats_only = Unset
  /\ MotorcycleUpdate.odometer_unit seats_only = Unset
  /\ MotorcycleUpdate.is_electric seats_only = Unset.
Proof. repeat split. Qed.

(* ================================================================= *)
(** ** The table invariant holds after every sequence of requests *)

Lemma NoDup_snoc {A : Type} (l : list A) (x : A) :
  NoDup l -> ~ In x l -> NoDup (l ++ [x]).
Proof.
  induction l as [|y l IH]; simpl; intros Hnd Hx.
  - constructor; [intros []|constructor].
  - inversion Hnd as [|? ? Hy Hnd']; subst. constructor.
    + rewrite in_app_iff. simpl. intros [H|[H|[]]].
      * exact (Hy H).
      * apply Hx. left. symmetry. exact H.
    + apply IH; [exact Hnd'|]. intros H. apply Hx. right. exact H.
Qed.

(** Removing the rows of one key keeps any column free of duplicates. *)
Lemma others_nodup {K : Type} (col : Row.t -> K) (i : Z) (rs : list Row.t) :
  NoDup (map col rs) -> NoDup (map col (Engine.others i rs)).
Proof.
  unfold Engine.others.
  induction rs as [|r rs IH]; simpl; intros Hnd; [constructor|].
  inversion Hnd as [|? ? Hr Hnd']; subst.
  destruct (negb (Row.id r =? i)); simpl; [|apply IH; exact Hnd'].
  constructor; [|apply IH; exact Hnd'].
  intros Hin. apply Hr. apply in_map_iff in Hin.
  destruct Hin as (y & Hy & Hyin). apply in_map_iff. exists y.
  split; [exact Hy|]. apply filter_In in Hyin. apply Hyin.
Qed.

Lemma taken_in_vins (v : string) (l : list Row.t) :
  Engine.vin_taken v l = false -> ~ In v (map Row.vin l).
Proof.
  unfold Engine.vin_taken. induction l as [|x l IH]; simpl; intros H.
  - intros [].
  - apply orb_false_iff in H. destruct H as [Hx Hl].
    intros [Heq|Hin].
    + rewrite Heq, String.eqb_refl in Hx. discriminate.
    + exact (IH Hl Hin).
Qed.

Lemma taken_in_ids (i : Z) (l : list Row.t) :
  Engine.id_taken i l = false -> ~ In i (map Row.id l).
Proof.
  unfold Engine.id_taken. induction l as [|x l IH]; simpl; intros H.
  - intros [].
  - apply orb_false_iff in H. destruct H as [Hx Hl].
    intros [Heq|Hin].
    + rewrite Heq, Z.eqb_refl in Hx. discriminate.
    + exact (IH Hl Hin).
Qed.

Lemma same_id_same_row (l : list Row.t) (x y : Row.t) :
  NoDup (map Row.id l) -> In x l -> In y l -> Row.id x = Row.id y -> x = y.
Proof.
  induction l as [|z l IH]; simpl; intros Hnd Hx Hy Heq; [contradiction|].
  inversion Hnd as [|? ? Hz Hnd']; subst.
  destruct Hx as [->|Hx], Hy as [->|Hy].
  - reflexivity.
  - exfalso. apply Hz. rewrite Heq. apply in_map_id. exact Hy.
  - exfalso. apply Hz. rewrite <- Heq. apply in_map_id. exact Hx.
  - apply IH; assumption.
Qed.

Lemma replace_id_vins (old new : Row.t) (l : list Row.t) :
  NoDup (map Row.id l) -> In old l -> Row.vin new = Row.vin old ->
  map Row.vin (Engine.replace_id (Row.id old) new l) = map Row.vin l.
Proof.
  intros Hnd Hin Hv. unfold Engine.replace_id. rewrite map_map.
  apply map_ext_in. intros x Hx.
  destruct (Row.id x =? Row.id old) eqn:E; [|reflexivity].
  apply Z.eqb_eq in E.
  rewrite (same_id_same_row l x old Hnd Hx Hin E). exact Hv.
Qed.

Lemma replace_id_bound (n : Z) (old new : Row.t) (l : list Row.t) :
  Row.id new = Row.id old -> In old l ->
  Forall (fun r => Row.id r < n) l ->
  Forall (fun r => Row.id r < n) (Engine.replace_id (Row.id old) new l).
Proof.
  intros Hid Hin Hall. rewrite Forall_forall in *.
  intros y Hy. unfold Engine.replace_id in Hy. apply in_map_iff in Hy.
  destruct Hy as (x & Hxy & Hx).
  destruct (Row.id x =? Row.id old); subst y.
  - rewrite Hid. apply Hall. exact Hin.
  - apply Hall. exact Hx.
Qed.

Lemma wf_empty : wf (table empty_session).
Proof. repeat split; simpl; constructor. Qed.

Lemma create_keeps_wf (data : MotorcycleCreate.t) (s : Session) :
  wf (table s) ->
  wf (table (snd (MotorcycleController.create_motorcycle data s))).
Proof.
  intros (Hids & Hvins & Hseq).
  unfold MotorcycleController.create_motorcycle,
    MotorcycleService.create_motorcycle,
    MotorcycleRepository.create_motorcycle, Engine.add, bind, called,
    get_table, commit, ret, raise. simpl.
  destruct (Engine.vin_taken (MotorcycleCreate.vin data) (rows (table s)))
    eqn:Hv; simpl; [repeat split; assumption|].
  destruct (Engine.id_taken (next_id (table s)) (rows (table s)))
    eqn:Hi; simpl; [repeat split; assumption|].
  repeat split; simpl.
  - rewrite map_app. simpl. apply NoDup_snoc; [exact Hids|].
    apply taken_in_ids. exact Hi.
  - rewrite map_app. simpl. apply NoDup_snoc; [exact Hvins|].
    apply taken_in_vins. exact Hv.
  - apply Forall_app. split.
    + apply (Forall_impl _ (P := fun r => Row.id r < next_id (table s)));
        [intros r Hr; lia|exact Hseq].
    + constructor; [simpl; lia|constructor].
Qed.

Lemma update_keeps_wf
      (vin : string) (data : MotorcycleService.update_data) (s : Session) :
  wf (table s) ->
  wf (table (snd (MotorcycleService.update_motorcycle vin data s))).
Proof.
  intros Hwf. pose proof Hwf as (Hids & Hvins & Hseq).
  unfold MotorcycleService.update_motorcycle.
  destruct (str_ne vin (MotorcycleService.data_vin data)) eqn:Hgate;
    [exact Hwf|].
  set (db_data := MotorcycleModel_init _).
  unfold bind.
  destruct (Engine.one
              (Engine.where_vin (read (MotorcycleModel.vin db_data)) (table s)))
    as [e|old] eqn:Hone.
  - unfold MotorcycleRepository.update_motorcycle, bind.
    rewrite get_one_run, Hone. exact Hwf.
  - rewrite (repository_update_run db_data s old Hids Hone).
    destruct (Engine.merge old (set_id db_data (Row.id old)))
      as [new|] eqn:Hm; [|exact Hwf].
    apply one_single in Hone.
    destruct (read (MotorcycleModel.vin db_data)) as [v|] eqn:Hv;
      simpl in Hone; [|discriminate].
    destruct (merge_set_id _ _ _ _ Hv Hm) as [Hid Hvin].
    destruct (filter_single_in _ _ _ _ Hone) as [Hin Hold].
    apply String.eqb_eq in Hold.
    repeat split; simpl.
    + rewrite replace_id_ids by exact Hid. exact Hids.
    + rewrite replace_id_vins by (try assumption; congruence). exact Hvins.
    + apply replace_id_bound; assumption.
Qed.

Lemma delete_keeps_wf (vin : string) (s : Session) :
  wf (table s) ->
  wf (table (snd (MotorcycleService.delete_motorcycle_by_vin vin s))).
Proof.
  intros Hwf. pose proof Hwf as (Hids & Hvins & Hseq).
  unfold MotorcycleService.delete_motorcycle_by_vin,
    MotorcycleRepository.delete_motorcycle_by_vin, bind.
  rewrite get_one_run.
  destruct (Engine.one (Engine.where_vin (Some vin) (table s)))
    as [e|old]; [exact Hwf|].
  unfold Engine.delete, Engine.get, bind, called, get_table, Engine.lift,
    commit, ret. simpl.
  destruct (Engine.one
              (filter (fun r => Row.id r =? Row.id old) (rows (table s))))
    as [e|r]; [exact Hwf|].
  repeat split; simpl.
  - apply others_nodup. exact Hids.
  - apply others_nodup. exact Hvins.
  - rewrite Forall_forall in *. intros x Hx. apply Hseq.
    unfold Engine.others in Hx. apply filter_In in Hx. apply Hx.
Qed.

Lemma handle_keeps_wf (s : Session) (r : Request) :
  wf (table s) -> wf (table (handle s r)).
Proof.
  intros Hwf. destruct r as [|vin|data|vin data|vin data|vin]; simpl.
  - exact Hwf.
  - unfold MotorcycleController.get_motorcycle_by_vin,
      MotorcycleService.get_motorcycle_by_vin,
      MotorcycleRepository.get_motorcycle_by_vin, bind.
    rewrite get_one_run.
    destruct (Engine.one (Engine.where_vin (Some vin) (table s)));
      exact Hwf.
  - apply create_keeps_wf. exact Hwf.
  - apply update_keeps_wf. exact Hwf.
  - apply update_keeps_wf. exact Hwf.
  - apply delete_keeps_wf. exact Hwf.
Qed.

(** X16: the key constraints of the schema hold in every session the
    service can reach from the empty table, by any sequence of requests: ids
    are unique and below the sequence, and vins are unique.  The hypothesis
    [wf] of the theorems above is met by every table the program itself
    builds. *)
Lemma serve_wf (rs : list Request) : wf (table (serve rs)).
Proof.
  unfold serve.
  assert (H : forall s, wf (table s) -> wf (table (fold_left handle rs s))).
  { induction rs as [|r rs IH]; simpl; intros s Hs; [exact Hs|].
    apply IH. apply handle_keeps_wf. exact Hs. }
  apply H. exact wf_empty.
Qed.

(* ================================================================= *)
(** ** Outcomes of an update *)

Lemma update_motorcycle_run
      (vin : string) (data : MotorcycleService.update_data) (s : Session) :
  MotorcycleService.update_motorcycle vin data s =
  if str_ne vin (MotorcycleService.data_vin data)
  then (inl MotorcycleService.mismatch, s)
  else
    match MotorcycleRepository.update_motorcycle (instance_of data) s with
    | (inl e, s') => (inl e, s')
    | (inr r, s') => (inr (MotorcycleResponse.model_validate r), s')
    end.
Proof.
  unfold MotorcycleService.update_motorcycle, instance_of, bind, ret.
  destruct (str_ne vin (MotorcycleService.data_vin data)); [reflexivity|].
  destruct data; reflexivity.
Qed.

Lemma instance_vin (data : MotorcycleService.update_data) :
  read (MotorcycleModel.vin (instance_of data))
  = MotorcycleService.data_vin data.
Proof. destruct data; reflexivity. Qed.

(** A failed repository update wrote nothing. *)
Lemma repository_update_failure
      (data : MotorcycleModel.t) (s s' : Session) (e : Exception) :
  MotorcycleRepository.update_motorcycle data s = (inl e, s') ->
  table s' = table s.
Proof.
  unfold MotorcycleRepository.update_motorcycle, bind.
  rewrite get_one_run.
  destruct (Engine.one
              (Engine.where_vin (read (MotorcycleModel.vin data)) (table s)))
    as [e0|old].
  - intros H. inversion H; subst. reflexivity.
  - unfold Engine.update, Engine.get, bind, called, get_table, Engine.lift,
      commit, ret, raise. simpl.
    destruct (Engine.one
                (filter (fun r => Row.id r =? Row.id old) (rows (table s))))
      as [e1|existing].
    + intros H. inversion H; subst. reflexivity.
    + destruct (Engine.merge existing (set_id data (Row.id old)))
        as [new|].
      * destruct (Engine.vin_taken
                    (Row.vin new)
                    (Engine.others (Row.id existing) (rows (table s)))).
        -- intros H. inversion H; subst. reflexivity.
        -- intros H. discriminate H.
      * intros H. inversion H; subst. reflexivity.
Qed.

Lemma update_failure
      (vin : string) (data : MotorcycleService.update_data)
      (s s' : Session) (e : Exception) :
  MotorcycleService.update_motorcycle vin data s = (inl e, s') ->
  table s' = table s.
Proof.
  rewrite update_motorcycle_run.
  destruct (str_ne vin (MotorcycleService.data_vin data)).
  - intros H. inversion H; subst. reflexivity.
  - destruct (MotorcycleRepository.update_motorcycle (instance_of data) s)
      as [[e0|r] s0] eqn:Hrun; intros H; inversion H; subst.
    apply (repository_update_failure _ _ _ _ Hrun).
Qed.

(** What a successful update did, on a table with a unique key: it found
    one row by vin, merged the instance into it, and put the merged row in
    its place. *)
Lemma update_success
      (vin : string) (data : MotorcycleService.update_data)
      (s s' : Session) (resp : MotorcycleResponse.t) :
  NoDup (map Row.id (rows (table s))) ->
  MotorcycleService.update_motorcycle vin data s = (inr resp, s') ->
  exists old new : Row.t,
    MotorcycleService.data_vin data = Some vin
    /\ filter (fun r => String.eqb (Row.vin r) vin) (rows (table s)) = [old]
    /\ Engine.merge old (set_id (instance_of data) (Row.id old)) = Some new
    /\ Row.id new = Row.id old
    /\ Row.vin new = vin
    /\ resp = MotorcycleResponse.model_validate new
    /\ table s' =
       {| rows := Engine.replace_id (Row.id old) new (rows (table s));
          next_id := next_id (table s) |}.
Proof.
  intros Hnd. rewrite update_motorcycle_run.
  destruct (str_ne vin (MotorcycleService.data_vin data)) eqn:Hgate;
    [discriminate|].
  apply str_ne_false in Hgate.
  pose proof (instance_vin data) as Hread. rewrite Hgate in Hread.
  destruct (Engine.one (Engine.where_vin (Some vin) (table s)))
    as [e|old] eqn:Hone.
  - unfold MotorcycleRepository.update_motorcycle, bind.
    rewrite get_one_run, Hread, Hone. discriminate.
  - rewrite (repository_update_run (instance_of data) s old Hnd)
      by (rewrite Hread; exact Hone).
    destruct (Engine.merge old (set_id (instance_of data) (Row.id old)))
      as [new|] eqn:Hm; [|discriminate].
    destruct (merge_set_id _ _ _ _ Hread Hm) as [Hid Hvin].
    intros H. inversion H; subst. clear H.
    exists old, new. apply one_single in Hone.
    repeat split; try assumption; reflexivity.
Qed.

(** If two rows of a table with a unique vin carry the same vin, they are
    the same row; and selecting by the vin of a stored row yields it alone. *)
Lemma where_vin_unique (l : list Row.t) (r : Row.t) :
  NoDup (map Row.vin l) -> In r l ->
  filter (fun x => String.eqb (Row.vin x) (Row.vin r)) l = [r].
Proof.
  induction l as [|x l IH]; simpl; intros Hnd Hin; [contradiction|].
  inversion Hnd as [|? ? Hnotin Hnd']; subst.
  destruct Hin as [->|Hin].
  - rewrite String.eqb_refl. f_equal.
    apply existsb_false_filter. apply existsb_false_forall.
    intros y Hy. apply String.eqb_neq. intros Heq.
    apply Hnotin. rewrite <- Heq. apply in_map. exact Hy.
  - destruct (String.eqb (Row.vin x) (Row.vin r)) eqn:E.
    + exfalso. apply String.eqb_eq in E. apply Hnotin. rewrite E.
      apply in_map. exact Hin.
    + apply IH; assumption.
Qed.

Lemma vin_taken_stored (v : string) (l : list Row.t) :
  Engine.vin_taken v l = true -> exists r, In r l /\ Row.vin r = v.
Proof.
  unfold Engine.vin_taken. intros H. apply existsb_exists in H.
  destruct H as (r & Hin & Heq). exists r. split; [exact Hin|].
  apply String.eqb_eq. exact Heq.
Qed.

(** Rewriting rows that do not carry a vin, into rows that do not carry it,
    does not change the selection by that vin. *)
Lemma replace_id_other_vin (v : string) (old new : Row.t) (l : list Row.t) :
  NoDup (map Row.id l) -> In old l ->
  Row.vin old <> v -> Row.vin new <> v ->
  filter (fun r => String.eqb (Row.vin r) v)
         (Engine.replace_id (Row.id old) new l)
  = filter (fun r => String.eqb (Row.vin r) v) l.
Proof.
  intros Hnd Hin Hold Hnew.
  assert (H : forall l0, (forall x, In x l0 -> In x l) ->
            filter (fun r => String.eqb (Row.vin r) v)
                   (Engine.replace_id (Row.id old) new l0)
            = filter (fun r => String.eqb (Row.vin r) v) l0).
  { induction l0 as [|x l0 IH]; simpl; intros Hsub; [reflexivity|].
    rewrite IH by (intros y Hy; apply Hsub; right; exact Hy).
    destruct (Row.id x =? Row.id old) eqn:E; [|reflexivity].
    apply Z.eqb_eq in E.
    assert (Hx : x = old).
    { apply (same_id_same_row l); try assumption.
      apply Hsub. left. reflexivity. }
    subst x.
    apply String.eqb_neq in Hold. apply String.eqb_neq in Hnew.
    rewrite Hold, Hnew. reflexivity. }
  apply H. intros x Hx. exact Hx.
Qed.

Lemma two_stored_wf : wf (table two_stored).
Proof.
  repeat split; vm_compute.
  - constructor; [intros [H|[]]; discriminate|].
    constructor; [intros []|constructor].
  - constructor; [intros [H|[]]; discriminate|].
    constructor; [intros []|constructor].
  - constructor; [reflexivity|]. constructor; [reflexivity|constructor].
Qed.

(* ================================================================= *)
(** ** Failed requests, and the records a write does not name *)

Lemma get_by_table (vin : string) (s1 s2 : Session) :
  Engine.where_vin (Some vin) (table s1)
  = Engine.where_vin (Some vin) (table s2) ->
  fst (MotorcycleService.get_motorcycle_by_vin vin s1)
  = fst (MotorcycleService.get_motorcycle_by_vin vin s2).
Proof.
  intros H.
  unfold MotorcycleService.get_motorcycle_by_vin,
    MotorcycleRepository.get_motorcycle_by_vin, bind.
  rewrite !get_one_run, H.
  destruct (Engine.one (Engine.where_vin (Some vin) (table s2)));
    reflexivity.
Qed.



(** X2: creating a motorcycle, whether it succeeds or not, does not change
    what reading any other vin returns. *)
Theorem create_leaves_other_vins
        (data : MotorcycleCreate.t) (s : Session) (vin' : string) :
  vin' <> MotorcycleCreate.vin data ->
  fst (MotorcycleService.get_motorcycle_by_vin
         vin' (snd (MotorcycleService.create_motorcycle data s)))
  = fst (MotorcycleService.get_motorcycle_by_vin vin' s).
Proof.
  intros Hne. apply get_by_table.
  unfold MotorcycleService.create_motorcycle,
    MotorcycleRepository.create_motorcycle, Engine.add, bind, called,
    get_table, commit, ret, raise. simpl.
  destruct (Engine.vin_taken (MotorcycleCreate.vin data) (rows (table s)));
    simpl; [reflexivity|].
  destruct (Engine.id_taken (next_id (table s)) (rows (table s)));
    simpl; [reflexivity|].
  rewrite filter_app. simpl.
  assert (E : String.eqb (MotorcycleCreate.vin data) vin' = false).
  { apply String.eqb_neq. intros H. apply Hne. symmetry. exact H. }
  rewrite E. apply app_nil_r.
Qed.

Lemma create_leaves_other_vins_witness :
  fst (MotorcycleService.get_motorcycle_by_vin
         "VIN123" (snd (MotorcycleService.create_motorcycle scooter one_stored)))
  = fst (MotorcycleService.get_motorcycle_by_vin "VIN123" one_stored).
Proof.
  apply (@create_leaves_other_vins scooter one_stored "VIN123").
  discriminate.
Defined.

(** X3: on a well-formed table an update of one vin, whether it succeeds or
    not, does not change what reading any other vin returns. *)
Theorem update_leaves_other_vins
        (vin : string) (data : MotorcycleService.update_data)
        (s : Session) (vin' : string) :
  wf (table s) ->
  vin' <> vin ->
  fst (MotorcycleService.get_motorcycle_by_vin
         vin' (snd (MotorcycleService.update_motorcycle vin data s)))
  = fst (MotorcycleService.get_motorcycle_by_vin vin' s).
Proof.
  intros (Hnd & _ & _) Hne. apply get_by_table.
  destruct (MotorcycleService.update_motorcycle vin data s)
    as [[e|resp] s'] eqn:Hrun; simpl.
  - rewrite (update_failure _ _ _ _ _ Hrun). reflexivity.
  - destruct (update_success _ _ _ _ _ Hnd Hrun)
      as (old & new & _ & Hf & _ & _ & Hvin & _ & Htable).
    rewrite Htable. simpl.
    destruct (filter_single_in _ _ _ _ Hf) as [Hin Hold].
    apply String.eqb_eq in Hold.
    apply replace_id_other_vin; try assumption; congruence.
Qed.

Lemma update_leaves_other_vins_witness :
  fst (MotorcycleService.get_motorcycle_by_vin
         "VIN456"
         (snd (MotorcycleService.update_motorcycle
                 "VIN123" (MotorcycleService.OfUpdate seats_only) two_stored)))
  = fst (MotorcycleService.get_motorcycle_by_vin "VIN456" two_stored).
Proof.
  apply (@update_leaves_other_vins
           "VIN123" (MotorcycleService.OfUpdate seats_only)
           two_stored "VIN456").
  - exact two_stored_wf.
  - discriminate.
Defined.

(** X4: on a well-formed table an update, whether it succeeds or not,
    leaves the vin of every row, the id of every row, the number of rows and
    the key sequence as they were: an update renames nothing, adds nothing
    and removes nothing. *)
Theorem update_keeps_vins
        (vin : string) (data : MotorcycleService.update_data) (s : Session) :
  wf (table s) ->
  map Row.vin
      (rows (table (snd (MotorcycleService.update_motorcycle vin data s))))
  = map Row.vin (rows (table s))
  /\ map Row.id
         (rows (table (snd (MotorcycleService.update_motorcycle vin data s))))
     = map Row.id (rows (table s))
  /\ next_id (table (snd (MotorcycleService.update_motorcycle vin data s)))
     = next_id (table s).
Proof.
  intros (Hnd & _ & _).
  destruct (MotorcycleService.update_motorcycle vin data s)
    as [[e|resp] s'] eqn:Hrun; simpl.
  - rewrite (update_failure _ _ _ _ _ Hrun). repeat split.
  - destruct (update_success _ _ _ _ _ Hnd Hrun)
      as (old & new & _ & Hf & _ & Hid & Hvin & _ & Htable).
    rewrite Htable. simpl.
    destruct (filter_single_in _ _ _ _ Hf) as [Hin Hold].
    apply String.eqb_eq in Hold.
    repeat split.
    + apply replace_id_vins; try assumption. congruence.
    + apply replace_id_ids. exact Hid.
Qed.

Lemma update_keeps_vins_witness :
  map Row.vin
      (rows (table (snd (MotorcycleService.update_motorcycle
                           "VIN123" (MotorcycleService.OfCreate rebuilt)
                           two_stored))))
  = map Row.vin (rows (table two_stored))
  /\ map Row.id
         (rows (table (snd (MotorcycleService.update_motorcycle
                              "VIN123" (MotorcycleService.OfCreate rebuilt)
                              two_stored))))
     = map Row.id (rows (table two_stored))
  /\ next_id (table (snd (MotorcycleService.update_motorcycle
                            "VIN123" (MotorcycleService.OfCreate rebuilt)
                            two_stored)))
     = next_id (table two_stored).
Proof.
  apply (@update_keeps_vins
           "VIN123" (MotorcycleService.OfCreate rebuilt) two_stored).
  exact two_stored_wf.
Defined.

(* ================================================================= *)
(** ** Repeating, replacing and nulling in an update *)

Lemma merge_col_again {A : Type} (old x : A) (a : attr A) :
  Engine.merge_col old a = Some x -> Engine.merge_col x a = Some x.
Proof.
  destruct a as [|[v|]]; simpl; intros H; try discriminate.
  - reflexivity.
  - exact H.
Qed.

(** Merging the same instance into the row a merge produced changes
    nothing. *)
Lemma merge_again (old new : Row.t) (data : MotorcycleModel.t) :
  Engine.merge old data = Some new -> Engine.merge new data = Some new.
Proof.
  unfold Engine.merge.
  destruct (Engine.merge_col (Row.id old) (MotorcycleModel.id data))
    as [i|] eqn:H1; [|discriminate].
  destruct (Engine.merge_col (Row.vin old) (MotorcycleModel.vin data))
    as [v|] eqn:H2; [|discriminate].
  destruct (Engine.merge_col (Row.motorcycle_type old)
                             (MotorcycleModel.motorcycle_type data))
    as [ty|] eqn:H3; [|discriminate].
  destruct (Engine.merge_col (Row.odometer_value old)
                             (MotorcycleModel.odometer_value data))
    as [ov|] eqn:H4; [|discriminate].
  destruct (Engine.merge_col (Row.odometer_unit old)
                             (MotorcycleModel.odometer_unit data))
    as [ou|] eqn:H5; [|discriminate].
  destruct (Engine.merge_col (Row.is_electric old)
                             (MotorcycleModel.is_electric data))
    as [el|] eqn:H6; [|discriminate].
  destruct (Engine.merge_col (Row.number_of_seats old)
                             (MotorcycleModel.number_of_seats data))
    as [n|] eqn:H7; [|discriminate].
  intros H. injection H as <-. simpl.
  rewrite (merge_col_again _ _ _ H1), (merge_col_again _ _ _ H2),
    (merge_col_again _ _ _ H3), (merge_col_again _ _ _ H4),
    (merge_col_again _ _ _ H5), (merge_col_again _ _ _ H6),
    (merge_col_again _ _ _ H7).
  reflexivity.
Qed.

Lemma replace_id_again (i : Z) (new : Row.t) (l : list Row.t) :
  Row.id new = i ->
  Engine.replace_id i new (Engine.replace_id i new l)
  = Engine.replace_id i new l.
Proof.
  intros Hid. unfold Engine.replace_id. rewrite map_map.
  apply map_ext. intros x.
  destruct (Row.id x =? i) eqn:E.
  - rewrite Hid, Z.eqb_refl. reflexivity.
  - rewrite E. reflexivity.
Qed.

(** X5: on a well-formed table, sending again an update that succeeded
    succeeds again with the same response and leaves the table as the first
    one left it. *)
Theorem update_is_idempotent
        (vin : string) (data : MotorcycleService.update_data)
        (s s1 : Session) (resp : MotorcycleResponse.t) :
  wf (table s) ->
  MotorcycleService.update_motorcycle vin data s = (inr resp, s1) ->
  exists s2 : Session,
    MotorcycleService.update_motorcycle vin data s1 = (inr resp, s2)
    /\ table s2 = table s1.
Proof.
  intros (Hnd & _ & _) Hrun.
  destruct (update_success _ _ _ _ _ Hnd Hrun)
    as (old & new & Hvin & Hf & Hm & Hid & Hnew & Hresp & Htable).
  assert (Hnd1 : NoDup (map Row.id (rows (table s1)))).
  { rewrite Htable. simpl. rewrite replace_id_ids by exact Hid. exact Hnd. }
  assert (Hone1 : Engine.one
                    (Engine.where_vin
                       (read (MotorcycleModel.vin (instance_of data)))
                       (table s1)) = inr new).
  { rewrite instance_vin, Hvin, Htable. simpl.
    rewrite (replace_id_where_vin vin old new _ Hnd Hf Hnew). reflexivity. }
  rewrite update_motorcycle_run.
  assert (Hgate : str_ne vin (MotorcycleService.data_vin data) = false)
    by (apply str_ne_false; exact Hvin).
  rewrite Hgate.
  rewrite (repository_update_run (instance_of data) s1 new Hnd1 Hone1).
  rewrite Hid, (merge_again _ _ _ Hm).
  eexists. split.
  - rewrite Hresp. reflexivity.
  - simpl. rewrite Htable. simpl.
    rewrite replace_id_again by exact Hid. reflexivity.
Qed.

Lemma update_is_idempotent_witness :
  exists s2 : Session,
    MotorcycleService.update_motorcycle
      "VIN123" (MotorcycleService.OfUpdate seats_only) one_patched
    = (inr (MotorcycleResponse.model_validate patched_row), s2)
    /\ table s2 = table one_patched.
Proof.
  apply (@update_is_idempotent
           "VIN123" (MotorcycleService.OfUpdate seats_only)
           one_stored one_patched
           (MotorcycleResponse.model_validate patched_row)).
  - exact one_stored_wf.
  - reflexivity.
Defined.



Lemma merge_null (old : Row.t) (u : MotorcycleUpdate.t) (i : Z) :
  MotorcycleUpdate.odometer_value u = SetTo None
  \/ MotorcycleUpdate.odometer_unit u = SetTo None
  \/ MotorcycleUpdate.is_electric u = SetTo None
  \/ MotorcycleUpdate.number_of_seats u = SetTo None ->
  Engine.merge
    old (set_id (MotorcycleModel_init
                   (MotorcycleUpdate.model_dump_exclude_unset u)) i)
  = None.
Proof.
  destruct u as [v mt ov ou el n]. unfold Engine.merge. simpl.
  intros [ -> | [ -> | [ -> | -> ] ] ]; simpl;
    destruct (Engine.merge_col (Row.vin old) v);
    destruct (Engine.merge_col (Row.motorcycle_type old) mt);
    try destruct (Engine.merge_col (Row.odometer_value old) ov);
    try destruct (Engine.merge_col (Row.odometer_unit old) ou);
    try destruct (Engine.merge_col (Row.is_electric old) el);
    reflexivity.
Qed.

(** X7: an update whose body restates the vin of a stored row but sends
    [null] for one of the columns declared [nullable=False] (odometer value,
    odometer unit, electric flag, number of seats) is refused with the
    integrity error, answered 409, and writes nothing; this holds under PUT
    and under PATCH. *)
Theorem update_with_null_is_refused
        (vin : string) (u : MotorcycleUpdate.t) (s : Session) (old : Row.t) :
  wf (table s) ->
  read (MotorcycleUpdate.vin u) = Some vin ->
  Engine.one (Engine.where_vin (Some vin) (table s)) = inr old ->
  MotorcycleUpdate.odometer_value u = SetTo None
  \/ MotorcycleUpdate.odometer_unit u = SetTo None
  \/ MotorcycleUpdate.is_electric u = SetTo None
  \/ MotorcycleUpdate.number_of_seats u = SetTo None ->
  exists s' : Session,
    MotorcycleController.partially_update_motorcycle vin u s
    = (inl IntegrityError, s')
    /\ MotorcycleController.update_motorcycle vin u s
       = (inl IntegrityError, s')
    /\ table s' = table s
    /\ MotorcycleController.status_code
         200 (fst (MotorcycleController.update_motorcycle vin u s)) = 409.
Proof.
  intros (Hnd & _ & _) Hvin Hone Hnull.
  assert (Hrun : MotorcycleService.update_motorcycle
                   vin (MotorcycleService.OfUpdate u) s
                 = (inl IntegrityError,
                    with_call
                      (with_call s (CallGetOne (Some vin)))
                      (CallUpdate
                         (set_id (instance_of (MotorcycleService.OfUpdate u))
                                 (Row.id old))))).
  { rewrite update_motorcycle_run.
    assert (Hgate : str_ne vin (MotorcycleService.data_vin
                                  (MotorcycleService.OfUpdate u)) = false)
      by (apply str_ne_false; exact Hvin).
    rewrite Hgate.
    assert (Hread : read (MotorcycleModel.vin
                            (instance_of (MotorcycleService.OfUpdate u)))
                    = Some vin) by exact Hvin.
    rewrite (repository_update_run
               (instance_of (MotorcycleService.OfUpdate u)) s old Hnd)
      by (rewrite Hread; exact Hone).
    unfold instance_of. rewrite (merge_null old u (Row.id old) Hnull).
    simpl. rewrite Hvin. reflexivity. }
  unfold MotorcycleController.partially_update_motorcycle,
    MotorcycleController.update_motorcycle.
  rewrite Hrun. eexists. repeat split.
Qed.

Lemma update_with_null_is_refused_witness :
  exists s' : Session,
    MotorcycleController.partially_update_motorcycle
      "VIN123" null_odometer two_stored
    = (inl IntegrityError, s')
    /\ MotorcycleController.update_motorcycle "VIN123" null_odometer two_stored
       = (inl IntegrityError, s')
    /\ table s' = table two_stored
    /\ MotorcycleController.status_code
         200 (fst (MotorcycleController.update_motorcycle
                     "VIN123" null_odometer two_stored)) = 409.
Proof.
  apply (@update_with_null_is_refused
           "VIN123" null_odometer two_stored cruiser_row).
  - exact two_stored_wf.
  - reflexivity.
  - reflexivity.
  - left. reflexivity.
Defined.

(* ================================================================= *)
(** ** Reading, listing and deleting stored records *)

(** X8: on a well-formed table every stored vin can be read: the lookup
    succeeds, never ambiguously, with the response of a stored row that
    carries that vin, and leaves the table alone. *)
Theorem stored_vin_is_found (vin : string) (s : Session) :
  wf (table s) ->
  Engine.vin_taken vin (rows (table s)) = true ->
  exists r : Row.t,
    In r (rows (table s))
    /\ Row.vin r = vin
    /\ MotorcycleService.get_motorcycle_by_vin vin s
       = (inr (MotorcycleResponse.model_validate r),
          with_call s (CallGetOne (Some vin))).
Proof.
  intros (_ & Hvins & _) Htaken.
  destruct (vin_taken_stored _ _ Htaken) as (r & Hin & Hv).
  exists r. split; [exact Hin|]. split; [exact Hv|].
  unfold MotorcycleService.get_motorcycle_by_vin,
    MotorcycleRepository.get_motorcycle_by_vin, bind.
  rewrite get_one_run. simpl. rewrite <- Hv.
  rewrite (where_vin_unique _ _ Hvins Hin). reflexivity.
Qed.

Lemma stored_vin_is_found_witness :
  exists r : Row.t,
    In r (rows (table two_stored))
    /\ Row.vin r = "VIN456"
    /\ MotorcycleService.get_motorcycle_by_vin "VIN456" two_stored
       = (inr (MotorcycleResponse.model_validate r),
          with_call two_stored (CallGetOne (Some "VIN456"))).
Proof.
  apply (@stored_vin_is_found "VIN456" two_stored).
  - exact two_stored_wf.
  - reflexivity.
Defined.

(** X9: on a well-formed table the listing and the lookup agree: a
    response is in the listing exactly when reading its vin returns it. *)
Theorem listed_iff_found
        (s : Session) (l : list MotorcycleResponse.t)
        (resp : MotorcycleResponse.t) :
  wf (table s) ->
  fst (MotorcycleController.list_motorcycles s) = inr l ->
  (In resp l <->
   fst (MotorcycleController.get_motorcycle_by_vin
          (MotorcycleResponse.vin resp) s) = inr resp).
Proof.
  intros (_ & Hvins & _) Hl.
  change (fst (MotorcycleController.list_motorcycles s))
    with (@inr Exception _
            (map MotorcycleResponse.model_validate
                 (Engine.sort_by Row.vin false (rows (table s))))) in Hl.
  injection Hl as <-.
  unfold MotorcycleController.get_motorcycle_by_vin,
    MotorcycleService.get_motorcycle_by_vin,
    MotorcycleRepository.get_motorcycle_by_vin, bind.
  rewrite get_one_run. simpl.
  split.
  - intros Hin. apply in_map_iff in Hin. destruct Hin as (r & <- & Hr).
    apply (Permutation_in _ (sort_by_perm Row.vin false _)) in Hr.
    simpl. rewrite (where_vin_unique _ _ Hvins Hr). reflexivity.
  - destruct (Engine.one
                (filter (fun r => String.eqb (Row.vin r)
                                             (MotorcycleResponse.vin resp))
                        (rows (table s)))) as [e|r] eqn:Hone;
      simpl; intros H; [discriminate|].
    injection H as <-. apply one_single in Hone.
    destruct (filter_single_in _ _ _ _ Hone) as [Hr _].
    apply in_map.
    apply (Permutation_in _ (Permutation_sym (sort_by_perm Row.vin false _))).
    exact Hr.
Qed.

Lemma listed_iff_found_witness :
  In (MotorcycleResponse.model_validate scooter_row)
     [MotorcycleResponse.model_validate cruiser_row;
      MotorcycleResponse.model_validate scooter_row]
  <-> fst (MotorcycleController.get_motorcycle_by_vin
             (MotorcycleResponse.vin
                (MotorcycleResponse.model_validate scooter_row))
             two_stored)
      = inr (MotorcycleResponse.model_validate scooter_row).
Proof.
  apply (@listed_iff_found
           two_stored
           [MotorcycleResponse.model_validate cruiser_row;
            MotorcycleResponse.model_validate scooter_row]
           (MotorcycleResponse.model_validate scooter_row)).
  - exact two_stored_wf.
  - reflexivity.
Defined.

Lemma others_length (old : Row.t) (l : list Row.t) :
  NoDup (map Row.id l) -> In old l ->
  S (List.length (Engine.others (Row.id old) l)) = List.length l.
Proof.
  unfold Engine.others.
  induction l as [|x l IH]; simpl; intros Hnd Hin; [contradiction|].
  inversion Hnd as [|? ? Hnotin Hnd']; subst.
  destruct Hin as [->|Hin].
  - rewrite Z.eqb_refl. simpl. f_equal.
    assert (H : forall l0, ~ In (Row.id old) (map Row.id l0) ->
              filter (fun r => negb (Row.id r =? Row.id old)) l0 = l0).
    { induction l0 as [|y l0 IH0]; simpl; intros Hn; [reflexivity|].
      destruct (Row.id y =? Row.id old) eqn:E.
      - exfalso. apply Hn. left. apply Z.eqb_eq. exact E.
      - simpl. f_equal. apply IH0. intros H. apply Hn. right. exact H. }
    rewrite (H l Hnotin). reflexivity.
  - destruct (Row.id x =? Row.id old) eqn:E.
    + exfalso. apply Z.eqb_eq in E. apply Hnotin. rewrite E.
      apply in_map_id. exact Hin.
    + simpl. f_equal. apply IH; assumption.
Qed.


Lemma others_other_vin (v : string) (old : Row.t) (l : list Row.t) :
  NoDup (map Row.id l) -> In old l -> Row.vin old <> v ->
  filter (fun r => String.eqb (Row.vin r) v) (Engine.others (Row.id old) l)
  = filter (fun r => String.eqb (Row.vin r) v) l.
Proof.
  intros Hnd Hin Hold.
  assert (H : forall l0, (forall x, In x l0 -> In x l) ->
            filter (fun r => String.eqb (Row.vin r) v)
                   (Engine.others (Row.id old) l0)
            = filter (fun r => String.eqb (Row.vin r) v) l0).
  { unfold Engine.others.
    induction l0 as [|x l0 IH]; simpl; intros Hsub; [reflexivity|].
    destruct (Row.id x =? Row.id old) eqn:E; simpl.
    - apply Z.eqb_eq in E.
      assert (Hx : x = old).
      { apply (same_id_same_row l); try assumption.
        apply Hsub. left. reflexivity. }
      subst x. apply String.eqb_neq in Hold. rewrite Hold.
      apply IH. intros y Hy. apply Hsub. right. exact Hy.
    - rewrite IH by (intros y Hy; apply Hsub; right; exact Hy).
      reflexivity. }
  apply H. intros x Hx. exact Hx.
Qed.

(** X10: on a well-formed table, deleting a stored vin succeeds and removes
    exactly the row that carries it: one row fewer, that vin no longer
    stored, the key sequence untouched, and every other vin reads as
    before. *)
Theorem delete_removes_exactly_one (vin : string) (s : Session) :
  wf (table s) ->
  Engine.vin_taken vin (rows (table s)) = true ->
  exists (old : Row.t) (s' : Session),
    In old (rows (table s))
    /\ Row.vin old = vin
    /\ MotorcycleService.delete_motorcycle_by_vin vin s = (inr tt, s')
    /\ rows (table s') = Engine.others (Row.id old) (rows (table s))
    /\ S (List.length (rows (table s'))) = List.length (rows (table s))
    /\ Engine.vin_taken vin (rows (table s')) = false
    /\ next_id (table s') = next_id (table s)
    /\ (forall vin', vin' <> vin ->
          fst (MotorcycleService.get_motorcycle_by_vin vin' s')
          = fst (MotorcycleService.get_motorcycle_by_vin vin' s)).
Proof.
  intros (Hids & Hvins & _) Htaken.
  destruct (vin_taken_stored _ _ Htaken) as (old & Hin & Hv).
  pose proof (where_vin_unique _ _ Hvins Hin) as Hf. rewrite Hv in Hf.
  pose proof (where_id_unique _ _ Hids Hin) as Hi.
  exists old. eexists.
  split; [exact Hin|]. split; [exact Hv|]. split.
  - unfold MotorcycleService.delete_motorcycle_by_vin,
      MotorcycleRepository.delete_motorcycle_by_vin, bind.
    rewrite get_one_run. simpl. rewrite Hf. simpl.
    unfold Engine.delete, Engine.get, bind, called, get_table, Engine.lift,
      commit, ret. simpl. rewrite Hi. simpl. reflexivity.
  - simpl. split; [reflexivity|]. split; [|split; [|split]].
    + apply others_length; assumption.
    + apply others_vin_free. exact Hf.
    + reflexivity.
    + intros vin' Hne. apply get_by_table. simpl.
      apply others_other_vin; try assumption. congruence.
Qed.

Lemma delete_removes_exactly_one_witness :
  exists (old : Row.t) (s' : Session),
    In old (rows (table two_stored))
    /\ Row.vin old = "VIN123"
    /\ MotorcycleService.delete_motorcycle_by_vin "VIN123" two_stored
       = (inr tt, s')
    /\ rows (table s') = Engine.others (Row.id old) (rows (table two_stored))
    /\ S (List.length (rows (table s'))) = List.length (rows (table two_stored))
    /\ Engine.vin_taken "VIN123" (rows (table s')) = false
    /\ next_id (table s') = next_id (table two_stored)
    /\ (forall vin', vin' <> "VIN123" ->
          fst (MotorcycleService.get_motorcycle_by_vin vin' s')
          = fst (MotorcycleService.get_motorcycle_by_vin vin' two_stored)).
Proof.
  apply (@delete_removes_exactly_one "VIN123" two_stored).
  - exact two_stored_wf.
  - reflexivity.
Defined.



(* ================================================================= *)
(** ** The listing does not depend on the insertion order *)

Lemma leb_lt_or_eq (x y : string) :
  String.leb x y = true <-> String_as_OT.lt x y \/ x = y.
Proof.
  unfold String.leb.
  destruct (String.compare x y) eqn:E; split; intros H;
    try reflexivity; try discriminate.
  - right. apply String_as_OT.cmp_eq. exact E.
  - left. apply String_as_OT.cmp_lt. exact E.
  - exfalso. destruct H as [H|H].
    + apply String_as_OT.cmp_lt in H. unfold String_as_OT.cmp in H.
      congruence.
    + apply String_as_OT.cmp_eq in H. unfold String_as_OT.cmp in H.
      congruence.
Qed.

Lemma leb_trans (x y z : string) :
  String.leb x y = true -> String.leb y z = true -> String.leb x z = true.
Proof.
  rewrite !leb_lt_or_eq. intros [Hxy| ->] [Hyz| ->].
  - left. exact (String_as_OT.lt_trans _ _ _ Hxy Hyz).
  - left. exact Hxy.
  - left. exact Hyz.
  - right. reflexivity.
Qed.

Lemma before_trans (d : bool) (x y z : string) :
  Engine.before d x y = true -> Engine.before d y z = true ->
  Engine.before d x z = true.
Proof.
  unfold Engine.before. destruct d; intros Hxy Hyz.
  - exact (leb_trans _ _ _ Hyz Hxy).
  - exact (leb_trans _ _ _ Hxy Hyz).
Qed.

Lemma before_antisym (d : bool) (x y : string) :
  Engine.before d x y = true -> Engine.before d y x = true -> x = y.
Proof.
  unfold Engine.before. destruct d; intros Hxy Hyx.
  - exact (String.leb_antisym _ _ Hyx Hxy).
  - exact (String.leb_antisym _ _ Hxy Hyx).
Qed.

Section SortedOnce.

Variable key : Row.t -> string.
Variable d : bool.

Let ordered (x y : Row.t) : Prop := Engine.before d (key x) (key y) = true.

Lemma ordered_heads (a b : Row.t) (t t' : list Row.t) :
  StronglySorted ordered (a :: t) ->
  StronglySorted ordered (b :: t') ->
  In a (b :: t') -> In b (a :: t) ->
  key a = key b.
Proof.
  intros Hs Hs' Ha Hb.
  inversion Hs as [|? ? _ Hall]; subst.
  inversion Hs' as [|? ? _ Hall']; subst.
  rewrite Forall_forall in Hall, Hall'.
  destruct Ha as [->|Ha]; [reflexivity|].
  destruct Hb as [->|Hb]; [reflexivity|].
  apply (before_antisym d).
  - apply Hall. exact Hb.
  - apply Hall'. exact Ha.
Qed.

(** Two orderings of the same rows under distinct keys are the same list. *)
Lemma sorted_perm_unique (l l' : list Row.t) :
  Sorted ordered l -> Sorted ordered l' ->
  Permutation l l' -> NoDup (map key l) -> l = l'.
Proof.
  assert (Htrans : Relations_1.Transitive ordered).
  { intros x y z Hxy Hyz. exact (before_trans d _ _ _ Hxy Hyz). }
  revert l'. induction l as [|a t IH]; intros l' Hs Hs' Hp Hnd.
  - apply Permutation_nil in Hp. symmetry. exact Hp.
  - destruct l' as [|b t'].
    + apply Permutation_sym, Permutation_nil in Hp. discriminate.
    + assert (Hkey : key a = key b).
      { apply (ordered_heads a b t t').
        - apply Sorted_StronglySorted; assumption.
        - apply Sorted_StronglySorted; assumption.
        - apply (Permutation_in _ Hp). left. reflexivity.
        - apply (Permutation_in _ (Permutation_sym Hp)). left. reflexivity. }
      assert (Hab : a = b).
      { assert (Hb : In b (a :: t)).
        { apply (Permutation_in _ (Permutation_sym Hp)). left. reflexivity. }
        destruct Hb as [Hb|Hb]; [exact Hb|].
        exfalso. simpl in Hnd. inversion Hnd as [|? ? Hnotin _]; subst.
        apply Hnotin. rewrite Hkey. apply in_map. exact Hb. }
      subst b. f_equal.
      apply IH.
      * inversion Hs; assumption.
      * inversion Hs'; assumption.
      * apply (Permutation_cons_inv Hp).
      * simpl in Hnd. inversion Hnd; assumption.
Qed.

End SortedOnce.

(** X12: two well-formed tables that hold the same rows, inserted in any
    two orders, give the same listing. *)
Theorem listing_ignores_insertion_order (s s' : Session) :
  wf (table s) ->
  Permutation (rows (table s)) (rows (table s')) ->
  fst (MotorcycleController.list_motorcycles s)
  = fst (MotorcycleController.list_motorcycles s').
Proof.
  intros (_ & Hvins & _) Hp.
  change (@inr Exception _
            (map MotorcycleResponse.model_validate
                 (Engine.sort_by Row.vin false (rows (table s))))
          = inr (map MotorcycleResponse.model_validate
                     (Engine.sort_by Row.vin false (rows (table s'))))).
  f_equal. f_equal.
  apply (sorted_perm_unique Row.vin false).
  - apply sort_by_sorted.
  - apply sort_by_sorted.
  - apply perm_trans with (rows (table s)); [apply sort_by_perm|].
    apply perm_trans with (rows (table s')); [exact Hp|].
    apply Permutation_sym. apply sort_by_perm.
  - apply (Permutation_NoDup
             (l := map Row.vin (rows (table s)))); [|exact Hvins].
    apply Permutation_map. apply Permutation_sym. apply sort_by_perm.
Qed.

Lemma listing_ignores_insertion_order_witness :
  fst (MotorcycleController.list_motorcycles two_stored)
  = fst (MotorcycleController.list_motorcycles two_stored_swapped).
Proof.
  apply (@listing_ignores_insertion_order two_stored two_stored_swapped).
  - exact two_stored_wf.
  - apply perm_swap.
Defined.

(* ================================================================= *)
(** ** Which exceptions a request can end with *)

Lemma selection_nodup {K : Type} (col : Row.t -> K) (keep : Row.t -> bool)
      (rs : list Row.t) :
  NoDup (map col rs) -> NoDup (map col (filter keep rs)).
Proof.
  induction rs as [|r rs IH]; simpl; intros Hnd; [constructor|].
  inversion Hnd as [|? ? Hr Hnd']; subst.
  destruct (keep r); simpl; [|apply IH; exact Hnd'].
  constructor; [|apply IH; exact Hnd'].
  intros Hin. apply Hr. apply in_map_iff in Hin.
  destruct Hin as (y & Hy & Hyin). apply in_map_iff. exists y.
  split; [exact Hy|]. apply filter_In in Hyin. apply Hyin.
Qed.

(** Under a unique vin a lookup by vin is never ambiguous. *)
Lemma one_by_vin_error (v : string) (l : list Row.t) (e : Exception) :
  NoDup (map Row.vin l) ->
  Engine.one (filter (fun r => String.eqb (Row.vin r) v) l) = inl e ->
  e = NotFoundError.
Proof.
  intros Hnd.
  pose proof (selection_nodup
                Row.vin (fun r => String.eqb (Row.vin r) v) l Hnd) as Hsel.
  destruct (filter (fun r => String.eqb (Row.vin r) v) l)
    as [|x [|y l']] eqn:Hf; simpl; intros H.
  - injection H as <-. reflexivity.
  - discriminate.
  - exfalso.
    assert (Hx : In x (filter (fun r => String.eqb (Row.vin r) v) l))
      by (rewrite Hf; left; reflexivity).
    assert (Hy : In y (filter (fun r => String.eqb (Row.vin r) v) l))
      by (rewrite Hf; right; left; reflexivity).
    apply filter_In in Hx. apply filter_In in Hy.
    destruct Hx as [_ Hx]. destruct Hy as [_ Hy].
    apply String.eqb_eq in Hx. apply String.eqb_eq in Hy.
    simpl in Hsel. inversion Hsel as [|? ? Hnotin _]; subst.
    apply Hnotin. left. congruence.
Qed.

Lemma get_one_error (vin : string) (s s' : Session) (e : Exception) :
  NoDup (map Row.vin (rows (table s))) ->
  Engine.get_one (Some vin) s = (inl e, s') -> e = NotFoundError.
Proof.
  intros Hnd. rewrite get_one_run. simpl. intros H.
  injection H as H _. apply (one_by_vin_error _ _ _ Hnd H).
Qed.

Lemma update_error
      (vin : string) (data : MotorcycleService.update_data)
      (s s' : Session) (e : Exception) :
  wf (table s) ->
  MotorcycleService.update_motorcycle vin data s = (inl e, s') ->
  e = MotorcycleService.mismatch \/ e = NotFoundError \/ e = IntegrityError.
Proof.
  intros (Hids & Hvins & _). rewrite update_motorcycle_run.
  destruct (str_ne vin (MotorcycleService.data_vin data)) eqn:Hgate.
  - intros H. injection H as <- _. left. reflexivity.
  - apply str_ne_false in Hgate.
    pose proof (instance_vin data) as Hread. rewrite Hgate in Hread.
    destruct (Engine.one (Engine.where_vin (Some vin) (table s)))
      as [e0|old] eqn:Hone.
    + unfold MotorcycleRepository.update_motorcycle, bind.
      rewrite get_one_run, Hread, Hone. intros H. injection H as <- _.
      right. left. simpl in Hone. apply (one_by_vin_error _ _ _ Hvins Hone).
    + rewrite (repository_update_run (instance_of data) s old Hids)
        by (rewrite Hread; exact Hone).
      destruct (Engine.merge old (set_id (instance_of data) (Row.id old)));
        [discriminate|].
      intros H. injection H as <- _. right. right. reflexivity.
Qed.

(** X13: on a well-formed table the exceptions of each operation are these
    and no others: listing raises none; reading and deleting raise only
    NotFoundError; creating raises only IntegrityError; PUT and PATCH raise
    only the vin-mismatch ValidationException, NotFoundError or
    IntegrityError.  In particular no request is ever answered with the
    ambiguous-result error. *)
Theorem possible_exceptions (s : Session) (r : Request) (e : Exception) :
  wf (table s) ->
  raised s r = Some e ->
  match r with
  | GetAll => False
  | GetOne _ => e = NotFoundError
  | Delete _ => e = NotFoundError
  | Post _ => e = IntegrityError
  | Put _ _ =>
      e = MotorcycleService.mismatch \/ e = NotFoundError
      \/ e = IntegrityError
  | Patch _ _ =>
      e = MotorcycleService.mismatch \/ e = NotFoundError
      \/ e = IntegrityError
  end.
Proof.
  intros Hwf. pose proof Hwf as (Hids & Hvins & _).
  destruct r as [|vin|data|vin data|vin data|vin]; simpl.
  - discriminate.
  - unfold MotorcycleController.get_motorcycle_by_vin,
      MotorcycleService.get_motorcycle_by_vin,
      MotorcycleRepository.get_motorcycle_by_vin, bind.
    destruct (Engine.get_one (Some vin) s) as [[e0|row] s'] eqn:Hrun;
      simpl; intros H; [|discriminate].
    injection H as <-. apply (get_one_error _ _ _ _ Hvins Hrun).
  - unfold MotorcycleController.create_motorcycle,
      MotorcycleService.create_motorcycle,
      MotorcycleRepository.create_motorcycle, Engine.add, bind, called,
      get_table, commit, ret, raise. simpl.
    destruct (Engine.vin_taken (MotorcycleCreate.vin data) (rows (table s)));
      simpl; [intros H; injection H as <-; reflexivity|].
    destruct (Engine.id_taken (next_id (table s)) (rows (table s)));
      simpl; [intros H; injection H as <-; reflexivity|discriminate].
  - unfold MotorcycleController.update_motorcycle.
    destruct (MotorcycleService.update_motorcycle
                vin (MotorcycleService.OfUpdate data) s)
      as [[e0|resp] s'] eqn:Hrun; simpl; intros H; [|discriminate].
    injection H as <-. apply (update_error _ _ _ _ _ Hwf Hrun).
  - unfold MotorcycleController.partially_update_motorcycle.
    destruct (MotorcycleService.update_motorcycle
                vin (MotorcycleService.OfUpdate data) s)
      as [[e0|resp] s'] eqn:Hrun; simpl; intros H; [|discriminate].
    injection H as <-. apply (update_error _ _ _ _ _ Hwf Hrun).
  - unfold MotorcycleController.delete_motorcycle_by_vin,
      MotorcycleService.delete_motorcycle_by_vin,
      MotorcycleRepository.delete_motorcycle_by_vin, bind.
    destruct (Engine.get_one (Some vin) s) as [[e0|old] s'] eqn:Hrun.
    + simpl. intros H. injection H as <-.
      apply (get_one_error _ _ _ _ Hvins Hrun).
    + rewrite get_one_run in Hrun. injection Hrun as Hone <-.
      apply one_single in Hone. simpl in Hone.
      destruct (filter_single_in _ _ _ _ Hone) as [Hin _].
      unfold Engine.delete, Engine.get, bind, called, get_table,
        Engine.lift, commit, ret. simpl.
      rewrite (where_id_unique _ _ Hids Hin). simpl. discriminate.
Qed.

Lemma possible_exceptions_witness :
  IntegrityError = MotorcycleService.mismatch
  \/ IntegrityError = NotFoundError
  \/ IntegrityError = IntegrityError.
Proof.
  apply (@possible_exceptions
           two_stored (Patch "VIN123" null_odometer) IntegrityError).
  - exact two_stored_wf.
  - reflexivity.
Defined.

(* ================================================================= *)
(** ** Ids are not handed out twice *)



